(** * Krist: a shallow embedding of the ledger core and its HTTP/websocket boundary

    The development follows the source files one module at a time:
    - [Js]            the fragment of JavaScript values the code manipulates;
    - [Errors]        src/errors/errors.js ([KristError]) and the error kinds
                      the routes build;
    - [Ws]            the socket handle the websocket route is given;
    - [Utils]         src/utils.js ([errorToJSON], [sendErrorToRes],
                      [sendToWS], [sendErrorToWS]);
    - [Schemas]       the tables behind src/transactions.js;
    - [Transactions]  src/transactions.js ([createTransaction],
                      [pushTransaction], [transactionToJSON]);
    - [Names]         src/names.js ([createName], [nameToJSON]);
    - [Work]          src/routes/work.js (the [/work] handler);
    - [Websockets]    src/routes/websockets.js (the [/:token] and
                      [/ws/start] handlers);
    - [Formatting]    src/utils.js ([hexToBase36], [padDigits]);
    - [Paging]        src/utils.js ([sanitiseLimit], [sanitiseOffset]);
    - [Listings]      the queries the listings of src/transactions.js and
                      src/names.js hand to the database;
    - [WorkRoot]      src/routes/work.js (the legacy [/] handler);
    - [Supply]        the sum of the balances, to state what transfers keep;
    - [Samples]       small states to run the operations on.

    Numbers are integers ([Z]); tables keyed by a unique string and
    JavaScript objects are finite maps; append-only tables and logs are
    lists.  Operations that act on the database, the console or a socket
    take the state and give it back; a call that can throw, or a promise
    that can be rejected, returns a [Js.completion].  Built-ins whose
    result depends on Unicode tables or on the engine
    ([String.prototype.toLowerCase], [String(number)], [parseInt], the
    longest string) and the modules that are not among the sources are
    parameters of the definitions that call them. *)

From stdpp Require Import gmap strings list fin_maps pretty.
From Stdlib Require Import ZArith Ascii.

#[local] Set Warnings "-register-all".
#[local] Open Scope Z_scope.

(* ===================================================================== *)
(** ** JavaScript values *)
(* ===================================================================== *)

Module Js.

(** The values that flow through the modelled code.  A [Date] is kept as
    its timestamp; an object is the finite map of its own enumerable
    properties. *)
Inductive value : Type :=
  | Undefined
  | Null
  | Bool (b : bool)
  | Num (z : Z)
  | Str (s : string)
  | Date (t : Z)
  | Obj (o : gmap string value).

(** ToBoolean, as used by [if (x)], [!x] and [x || y]. *)
Definition truthy (v : value) : bool :=
  match v with
  | Undefined | Null => false
  | Bool b => b
  | Num z => negb (z =? 0)%Z
  | Str s => negb (String.eqb s EmptyString)
  | Date _ | Obj _ => true
  end.

(** [a || b] *)
Definition or (a b : value) : value := if truthy a then a else b.

(** [v === s] for a string literal [s] *)
Definition is_str (v : value) (s : string) : bool :=
  match v with
  | Str s' => String.eqb s' s
  | _ => false
  end.

(** [o.k]: reading a property that is not there gives [undefined]. *)
Definition get (o : gmap string value) (k : string) : value :=
  default Undefined (o !! k).

(** The assignments [out[key] = src[key]] of a loop over the own properties
    of the object [src].  Assigning to [__proto__] goes to the setter
    inherited from [Object.prototype] and adds no property to [out]. *)
Definition copyOwn (src out : gmap string value) : gmap string value :=
  map_fold (λ key v acc, if decide (key = "__proto__") then acc else <[key:=v]> acc)
           out src.

(** The same loop over a string: its own properties are the indices of its
    characters, from [i] on, each holding the character. *)
Fixpoint copyIndices (i : nat) (src : string) (out : gmap string value)
  : gmap string value :=
  match src with
  | EmptyString => out
  | String c rest =>
      copyIndices (S i) rest (<[pretty i := Str (String c EmptyString)]> out)
  end.

(** [{ ...a, ...b }]: later properties win. *)
Definition spread (a b : gmap string value) : gmap string value := b ∪ a.

(** How a call completes: normally with a value, or by throwing. *)
Inductive completion (E A : Type) : Type :=
  | Normal (a : A)
  | Throw (e : E).
Arguments Normal {E A} a.
Arguments Throw {E A} e.

End Js.

(* ===================================================================== *)
(** ** src/errors/errors.js *)
(* ===================================================================== *)

Module Errors.
Import Js.

(** The fields [errors.KristError] sets on [this]. *)
Record KristError : Type := mkKristError {
  message : value;
  errorString : string;
  statusCode : Z;
  info : value
}.

(** [new errors.KristError(message)] *)
Definition newKristError (message : value) : KristError :=
  {| message := message;
     errorString := "unknown_error";
     statusCode := 500;
     info := Obj ∅ |}.

(** A value that reaches an error handler: an instance of [KristError]
    (or of a constructor inheriting from it), any other non-nullish value
    seen through the two properties the handlers read ([statusCode],
    [stack]), or [null]/[undefined]. *)
Inductive error : Type :=
  | Krist (e : KristError)
  | Plain (status : option Z) (stack : value)
  | Nullish.

(** The engine's own errors are plain [Error] objects: they carry a stack
    and no [statusCode]. *)
Definition ReferenceError (ident : string) : error :=
  Plain None (Str ("ReferenceError: " +:+ ident +:+ " is not defined")).

Definition TypeError (what : string) : error :=
  Plain None (Str ("TypeError: " +:+ what)).

Definition RangeError (what : string) : error :=
  Plain None (Str ("RangeError: " +:+ what)).

(** What [console.error(error)] shows of an error. *)
Definition inspect (e : error) : value :=
  match e with
  | Krist k =>
      Obj (<["message" := message k]>
          (<["errorString" := Str (errorString k)]>
          (<["statusCode" := Num (statusCode k)]>
          (<["info" := info k]> ∅))))
  | Plain _ stack => stack
  | Nullish => Undefined
  end.

(** Modelled from the spec: the [AuthFailed] kind of section 7, whose
    constructor lives in a file of src/errors/ that is not part of the
    sources at hand.  It inherits from [KristError]; the route builds it
    without a message. *)
Definition newErrorAuthFailed (message : value) : KristError :=
  {| message := message;
     errorString := "auth_failed";
     statusCode := 401;
     info := Obj ∅ |}.

(** Modelled from the spec: the [TokenNotFound] kind of section 7. *)
Definition newErrorTokenNotFound (message : value) : KristError :=
  {| message := message;
     errorString := "token_not_found";
     statusCode := 403;
     info := Obj ∅ |}.

(** Modelled from the spec: the [TokenExpired] kind of section 7. *)
Definition newErrorTokenExpired (message : value) : KristError :=
  {| message := message;
     errorString := "token_expired";
     statusCode := 403;
     info := Obj ∅ |}.

End Errors.

(* ===================================================================== *)
(** ** The socket handle of the [ws] library *)
(* ===================================================================== *)

Module Ws.
Import Js Errors.

Inductive ReadyState : Type := CONNECTING | OPEN | CLOSING | CLOSED.

Definition is_open (s : ReadyState) : bool :=
  match s with
  | OPEN => true
  | _ => false
  end.

(** A socket: its identity, its state and the frames written to it, each
    kept as the value that was serialised with [JSON.stringify]. *)
Record Socket : Type := mkSocket {
  handle : nat;
  readyState : ReadyState;
  outbox : list value
}.

(** [ws.send(data)]: the frame goes out on an open socket; on any other
    nothing goes out, and the library raises "WebSocket is not open" (up to
    its version 6; later versions drop the frame of a closing or closed
    socket without raising). *)
Definition send (data : value) (ws : Socket) : completion error unit * Socket :=
  if is_open (readyState ws) then
    (Normal (), {| handle := handle ws; readyState := readyState ws;
                   outbox := outbox ws ++ [data] |})
  else
    (Throw (Plain None (Str "Error: WebSocket is not open")), ws).


(** [ws.close()]: the closing handshake starts. *)
Definition close (ws : Socket) : Socket :=
  {| handle := handle ws;
     readyState := if is_open (readyState ws) then CLOSING else readyState ws;
     outbox := outbox ws |}.

End Ws.

(* ===================================================================== *)
(** ** src/utils.js *)
(* ===================================================================== *)

Module Utils.
Import Js Errors.

(** What [console.log] has printed so far. *)
Abbreviation console := (list value) (only parsing).

(** An express request, through the parts the handlers read. *)
Record Request : Type := mkRequest {
  query : gmap string value;
  body : gmap string value;
  params : gmap string string
}.

(** An express response: the status set with [res.status] and the body
    sent with [res.json] (none while nothing was sent). *)
Record Response : Type := mkResponse {
  status : Z;
  sent : option value
}.

(** A response nothing was written to yet. *)
Definition freshResponse : Response := {| status := 200; sent := None |}.

(** [res.status(code)] *)
Definition res_status (code : Z) (res : Response) : Response :=
  {| status := code; sent := sent res |}.

(** [res.json(v)] *)
Definition res_json (v : value) (res : Response) : Response :=
  {| status := status res; sent := Some v |}.

(** [Utils.errorToJSON].  In the [KristError] branch the statement
    [out.message = message] reads the identifier [message], which no scope
    declares: evaluating it throws a ReferenceError.  The copy loop,
    [for (var key in error.info) if (error.info.hasOwnProperty(key)) ...],
    runs over the own properties of [error.info]: those of an object, the
    indices of a string, none for a number, a boolean or a date.  When the
    object has an own property named [hasOwnProperty], the call
    [error.info.hasOwnProperty(key)] finds that value, which is no function,
    and throws a TypeError.  The two [console.log] of the other branch are
    recorded (without the colour codes); [error.stack] on
    [null]/[undefined] throws a TypeError after the first line went out. *)
Definition errorToJSON (error : Errors.error) (log : console)
  : completion Errors.error value * console :=
  match error with
  | Krist e =>
      let out : gmap string value :=
        <["error" := Str (errorString e)]> (<["ok" := Bool false]> ∅) in
      if truthy (message e) then
        (Throw (ReferenceError "message"), log)
      else if truthy (info e) then
        match info e with
        | Obj fields =>
            match fields !! "hasOwnProperty" with
            | Some _ =>
                (Throw (TypeError "error.info.hasOwnProperty is not a function"), log)
            | None => (Normal (Obj (copyOwn fields out)), log)
            end
        | Str characters => (Normal (Obj (copyIndices 0 characters out)), log)
        | _ => (Normal (Obj out), log)
        end
      else (Normal (Obj out), log)
  | Plain _ stack =>
      (Normal (Obj (<["error" := Str "server_error"]> (<["ok" := Bool false]> ∅))),
       log ++ [Str "[Error] Uncaught error."; stack])
  | Nullish =>
      (Throw (TypeError "Cannot read property 'stack'"),
       log ++ [Str "[Error] Uncaught error."])
  end.

(** [error.statusCode] ([None] for [undefined]); reading it throws on
    [null]/[undefined]. *)
Definition statusCodeOf (error : Errors.error) : completion Errors.error (option Z) :=
  match error with
  | Krist e => Normal (Some (statusCode e))
  | Plain st _ => Normal st
  | Nullish => Throw (TypeError "Cannot read property 'statusCode'")
  end.

(** [statusCode || 500] *)
Definition orDefault500 (st : option Z) : Z :=
  match st with
  | Some z => if z =? 0 then 500 else z
  | None => 500
  end.

(** The code [sendErrorToRes] settles on:
    [error.statusCode || 500], replaced by 200 when
    [req.query.cc !== 'undefined']. *)
Definition errorCodeFor (req : Request) (st : option Z) : Z :=
  let errorCode := orDefault500 st in
  if negb (is_str (get (query req) "cc") "undefined") then 200 else errorCode.

(** [Utils.sendErrorToRes].  [res.status(errorCode)] runs before the
    argument of [.json(...)] is evaluated, so the status is set even when
    [errorToJSON] throws and nothing is sent. *)
Definition sendErrorToRes (req : Request) (res : Response) (error : Errors.error)
    (log : console) : completion Errors.error unit * Response * console :=
  match statusCodeOf error with
  | Throw x => (Throw x, res, log)
  | Normal st =>
      let res := res_status (errorCodeFor req st) res in
      match errorToJSON error log with
      | (Throw x, log) => (Throw x, res, log)
      | (Normal json, log) => (Normal (), res_json json res, log)
      end
  end.

(** [Utils.sendToWS] *)
Definition sendToWS (ws : Ws.Socket) (message : value)
  : completion Errors.error unit * Ws.Socket :=
  Ws.send message ws.

(** [Utils.sendErrorToWS]: the argument is evaluated first, so nothing is
    written when [errorToJSON] throws. *)
Definition sendErrorToWS (ws : Ws.Socket) (error : Errors.error) (log : console)
  : completion Errors.error unit * Ws.Socket * console :=
  match errorToJSON error log with
  | (Throw x, log) => (Throw x, ws, log)
  | (Normal json, log) =>
      let '(r, ws) := Ws.send json ws in (r, ws, log)
  end.

End Utils.

(* ===================================================================== *)
(** ** src/schemas.js and src/addresses.js, as far as the ledger uses them *)
(* ===================================================================== *)

Module Schemas.
Import Js Errors.

(** A row of the [addresses] table. *)
Record Address : Type := mkAddress {
  address : string;
  firstseen : Z;
  balance : Z;
  totalin : Z;
  totalout : Z
}.

(** A row of the [transactions] table. *)
Record Transaction : Type := mkTransaction {
  id : Z;
  to : string;
  from : string;
  value : Z;
  name : Js.value;
  time : Z;
  op : Js.value
}.

(** [row.increment({ balance: n })] and [row.decrement({ balance: n })]
    on one column. *)
Definition add_balance (n : Z) (r : Address) : Address :=
  {| address := address r; firstseen := firstseen r;
     balance := balance r + n; totalin := totalin r; totalout := totalout r |}.

Definition add_totalout (n : Z) (r : Address) : Address :=
  {| address := address r; firstseen := firstseen r;
     balance := balance r; totalin := totalin r; totalout := totalout r + n |}.

(** Modelled from the spec: the persistence collaborator behind
    [instance.increment]/[instance.decrement] ("atomically apply a
    mutation") is not part of the sources at hand.  The update is applied
    to the stored row of the instance, found by its address, the unique
    key of an account; the instance in memory is not consulted. *)
Definition update_row (f : Address → Address) (key : string)
    (tbl : gmap string Address) : gmap string Address :=
  alter f key tbl.

(** Every row of the table is stored under its own address. *)
Definition keyed (tbl : gmap string Address) : Prop :=
  map_Forall (λ key row, address row = key) tbl.

(** What the persistence layer answers when a unique key is taken. *)
Definition UniqueConstraintError : error :=
  Plain None (Str "SequelizeUniqueConstraintError").

(** Modelled from the spec: [schemas.address.create] ("create a record");
    an account is "identified by a unique string key", so creating a
    second row for a stored address is refused and leaves the table as it
    was. *)
Definition address_create (row : Address) (tbl : gmap string Address)
  : completion error Address * gmap string Address :=
  match tbl !! address row with
  | Some _ => (Throw UniqueConstraintError, tbl)
  | None => (Normal row, <[address row := row]> tbl)
  end.

(** Modelled from the spec: [addresses.getAddress] ("read current
    balance/record"), from src/addresses.js which is not part of the
    sources at hand: the stored account of that address, if any. *)
Definition getAddress (a : string) (tbl : gmap string Address) : option Address :=
  tbl !! a.

(** Modelled from the spec: [schemas.transaction.create]; the id is
    "monotonic, assigned by the persistence collaborator", here the next
    row number. *)
Definition transaction_create (to from : string) (value : Z) (name : Js.value)
    (time : Z) (op : Js.value) (tbl : list Transaction) : Transaction * list Transaction :=
  let row := {| id := Z.of_nat (length tbl) + 1; to := to; from := from;
                value := value; name := name; time := time; op := op |} in
  (row, tbl ++ [row]).

End Schemas.

(* ===================================================================== *)
(** ** src/transactions.js *)
(* ===================================================================== *)

Module Transactions.
Import Js Errors Schemas.

(** The state the ledger operations act on: the two tables and the
    transactions handed to [webhooks.callTransactionWebhooks] so far. *)
Record World : Type := mkWorld {
  addresses : gmap string Address;
  transactions : list Transaction;
  webhooks : list Transaction
}.

Definition with_addresses (tbl : gmap string Address) (w : World) : World :=
  {| addresses := tbl; transactions := transactions w; webhooks := webhooks w |}.

(** The balance held at an address; an address without an account holds
    nothing. *)
Definition balanceOf (a : string) (w : World) : Z :=
  from_option balance 0 (addresses w !! a).

(** [Transactions.createTransaction]: the row is created with the five
    arguments and [time: new Date()], the webhooks are called with it and
    the promise resolves with it.  [now] is the clock reading. *)
Definition createTransaction (to from : string) (value : Z) (name op : Js.value)
    (now : Z) (w : World) : completion error Transaction * World :=
  let '(transaction, tbl) :=
    transaction_create to from value name now op (transactions w) in
  (Normal transaction,
   {| addresses := addresses w;
      transactions := tbl;
      webhooks := webhooks w ++ [transaction] |}).

(** [Promise.all(promises).then(results => resolve(results[2])).catch(reject)]:
    every operation has been started; the outcome is the third result
    unless one of them was rejected. *)
Definition settle {A B : Type} (created : completion error A)
    (third : completion error B) : completion error B :=
  match third, created with
  | Throw e, _ => Throw e
  | Normal _, Throw e => Throw e
  | Normal t, Normal _ => Normal t
  end.

Section WithBuiltins.

(** The built-in [String.prototype.toLowerCase]. *)
Variable toLowerCase : string → string.

(** [Transactions.pushTransaction]: the recipient is looked up first; then
    the four operations are issued in the order of the source. *)
Definition pushTransaction (sender : Address) (recipientAddress : string)
    (amount : Z) (metadata : Js.value) (now : Z) (w : World)
  : completion error Transaction * World :=
  let recipient := getAddress recipientAddress (addresses w) in
  (* sender.decrement({ balance: amount }) *)
  let w := with_addresses (update_row (add_balance (- amount)) (address sender) (addresses w)) w in
  (* sender.increment({ totalout: amount }) *)
  let w := with_addresses (update_row (add_totalout amount) (address sender) (addresses w)) w in
  (* Transactions.createTransaction(recipientAddress, sender.address, amount, null, metadata) *)
  let '(transaction, w) :=
    createTransaction recipientAddress (address sender) amount Null metadata now w in
  match recipient with
  | None =>
      let '(created, tbl) :=
        address_create {| address := toLowerCase recipientAddress;
                          firstseen := now;
                          balance := amount;
                          totalin := amount;
                          totalout := 0 |} (addresses w) in
      (settle created transaction, with_addresses tbl w)
  | Some recipient =>
      (* recipient.increment({ balance: amount, totalout: amount }) *)
      let tbl := update_row (λ r, add_totalout amount (add_balance amount r))
                            (address recipient) (addresses w) in
      (settle (Normal recipient) transaction, with_addresses tbl w)
  end.

End WithBuiltins.

(** The row [pushTransaction] has recorded when it is done, and the
    [addresses] table between its updates of the sender and its handling
    of the recipient; both are used to state what it does. *)
Definition transferRow (w : World) (sender : Address) (recipientAddress : string)
    (amount : Z) (metadata : Js.value) (now : Z) : Transaction :=
  {| id := Z.of_nat (length (transactions w)) + 1;
     to := recipientAddress; from := address sender; value := amount;
     name := Null; time := now; op := metadata |}.

Definition debited (sender : Address) (amount : Z) (tbl : gmap string Address)
  : gmap string Address :=
  update_row (add_totalout amount) (address sender)
    (update_row (add_balance (- amount)) (address sender) tbl).

(** [Transactions.transactionToJSON] *)
Definition transactionToJSON (t : Transaction) : Js.value :=
  Obj (<["id" := Num (id t)]>
      (<["from" := Str (from t)]>
      (<["to" := Str (to t)]>
      (<["value" := Num (value t)]>
      (<["time" := Date (time t)]>
      (<["name" := name t]>
      (<["metadata" := op t]> ∅))))))).

End Transactions.

(* ===================================================================== *)
(** ** src/names.js *)
(* ===================================================================== *)

Module Names.
Import Js Errors.

(** A row of the [names] table, with the columns [createName] fills in;
    [a] is left unset by it. *)
Record Name : Type := mkName {
  name : string;
  owner : string;
  original_owner : string;
  registered : Z;
  updated : Z;
  transferred : Js.value;
  a : Js.value;
  unpaid : Z
}.

(** The state [createName] acts on: the table, the purchase counter of
    the metrics client and the events handed to
    [websockets.broadcastEvent] so far. *)
Record World : Type := mkWorld {
  names : gmap string Name;
  namesPurchased : nat;
  broadcasts : list Js.value
}.

(** Modelled from the spec: [schemas.name.create]; "name is globally
    unique", by "a uniqueness constraint enforced at the persistence
    layer", so a second row for a stored name is refused. *)
Definition name_create (row : Name) (tbl : gmap string Name)
  : completion error Name * gmap string Name :=
  match tbl !! name row with
  | Some _ => (Throw Schemas.UniqueConstraintError, tbl)
  | None => (Normal row, <[name row := row]> tbl)
  end.

(** [Names.nameToJSON] *)
Definition nameToJSON (n : Name) : Js.value :=
  Obj (<["name" := Str (name n)]>
      (<["owner" := Str (owner n)]>
      (<["original_owner" := Str (original_owner n)]>
      (<["registered" := Date (registered n)]>
      (<["updated" := Date (updated n)]>
      (<["transferred" := Js.or (transferred n) Null]>
      (<["a" := a n]>
      (<["unpaid" := Js.or (Num (unpaid n)) (Num 0)]> ∅)))))))).

Section WithConstants.

(** [constants.nameCost], from src/constants.js. *)
Variable nameCost : Z.

(** [Names.getNameCost] *)
Definition getNameCost : Z := nameCost.

(** The event [createName] hands to [websockets.broadcastEvent]. *)
Definition nameEvent (dbName : Name) : Js.value :=
  Obj (<["type" := Str "event"]>
      (<["event" := Str "name"]>
      (<["name" := nameToJSON dbName]> ∅))).

(** [Names.createName].  When [schemas.name.create] is rejected the
    [await] throws and nothing after it runs. *)
Definition createName (name owner : string) (now : Z) (w : World)
  : completion error Name * World :=
  match name_create {| name := name;
                       owner := owner;
                       original_owner := owner;
                       registered := now;
                       updated := now;
                       transferred := Null;
                       a := Undefined;
                       unpaid := getNameCost |} (names w) with
  | (Throw e, tbl) =>
      (Throw e, {| names := tbl; namesPurchased := namesPurchased w;
                   broadcasts := broadcasts w |})
  | (Normal dbName, tbl) =>
      (Normal dbName,
       {| names := tbl;
          (* promNamesPurchasedCounter.inc() *)
          namesPurchased := S (namesPurchased w);
          (* websockets.broadcastEvent({ type, event, name }) *)
          broadcasts := broadcasts w ++ [nameEvent dbName] |})
  end.

End WithConstants.

End Names.

(* ===================================================================== *)
(** ** src/routes/work.js *)
(* ===================================================================== *)

Module Work.
Import Js Utils.

Section WithKrist.

(** Whatever state the server holds, and [krist.getWork] reading the
    current work from it (src/krist.js is the mining-difficulty
    collaborator). *)
Variable State : Type.
Variable getWork : State → Js.value.

(** [app.get('/work', ...)] *)
Definition getWorkRoute (req : Request) (res : Response) (s : State)
  : Response * State :=
  (res_json (Obj (<["ok" := Bool true]> (<["work" := getWork s]> ∅))) res, s).

End WithKrist.

End Work.

(* ===================================================================== *)
(** ** src/routes/websockets.js, with the parts of src/websockets.js it calls *)
(* ===================================================================== *)

Module Websockets.
Import Js Errors Utils.

(** A session token waiting to be used. *)
Record TokenEntry : Type := mkTokenEntry {
  tk_address : string;
  tk_privatekey : Js.value;
  tk_expires : Z
}.

(** An entry of the connection registry. *)
Record Connection : Type := mkConnection {
  conn_ws : nat;
  conn_token : string;
  conn_address : string;
  conn_privatekey : Js.value;
  conn_subscriptions : list string
}.

(** The state of the websocket module: pending tokens, registered
    connections, the "incomplete" connection counter and the console. *)
Record World : Type := mkWorld {
  tokens : gmap string TokenEntry;
  registry : list Connection;
  connectionsIncomplete : nat;
  log : list Js.value
}.

Definition with_tokens (t : gmap string TokenEntry) (w : World) : World :=
  {| tokens := t; registry := registry w;
     connectionsIncomplete := connectionsIncomplete w; log := log w |}.

Definition with_registry (r : list Connection) (w : World) : World :=
  {| tokens := tokens w; registry := r;
     connectionsIncomplete := connectionsIncomplete w; log := log w |}.

Definition with_log (l : list Js.value) (w : World) : World :=
  {| tokens := tokens w; registry := registry w;
     connectionsIncomplete := connectionsIncomplete w; log := l |}.

Definition console_log (line : Js.value) (w : World) : World :=
  with_log (log w ++ [line]) w.

(** The lifetime of a token, in seconds. *)
Definition tokenTTL : Z := 30.

(** Modelled from the spec: [websockets.useToken], the Credential
    Store's [consume] (src/websockets.js is not part of the sources at
    hand): the entry is removed and returned if present and not expired;
    [TokenNotFound] if absent; [TokenExpired], with the entry purged, if
    past its expiry.  The errors are built without a message. *)
Definition useToken (token : string) (now : Z) (tks : gmap string TokenEntry)
  : completion error TokenEntry * gmap string TokenEntry :=
  match tks !! token with
  | None => (Throw (Krist (newErrorTokenNotFound Undefined)), tks)
  | Some entry =>
      if tk_expires entry <? now then
        (Throw (Krist (newErrorTokenExpired Undefined)), delete token tks)
      else (Normal entry, delete token tks)
  end.

(** Modelled from the spec: [websockets.removeWebsocket], the registry's
    [deregister]: the entries of that socket are removed; removing an
    absent socket changes nothing. *)
Definition removeWebsocket (ws : Ws.Socket) (token : string)
    (reg : list Connection) : list Connection :=
  filter (λ c, conn_ws c ≠ Ws.handle ws) reg.

(** What happens to a socket while its handler is suspended at an [await]:
    the frames the server broadcasts to its registered connections in the
    meantime (keep-alive ticks, events), and whether the client has closed
    the socket by the time the handler resumes. *)
Record Meanwhile : Type := mkMeanwhile {
  broadcast : list Js.value;
  gone : bool
}.

(** Modelled from the spec: the Event Broadcaster and the keep-alive tick
    (src/websockets.js is not part of the sources at hand) deliver to
    "every live Connection Entry"; a registered socket that is open gets
    the frames in the order they were broadcast, and a write to a socket
    that is not open is dropped. *)
Definition during (m : Meanwhile) (ws : Ws.Socket) : Ws.Socket :=
  let outbox :=
    if Ws.is_open (Ws.readyState ws) then Ws.outbox ws ++ broadcast m
    else Ws.outbox ws in
  {| Ws.handle := Ws.handle ws;
     Ws.readyState := if gone m then Ws.CLOSED else Ws.readyState ws;
     Ws.outbox := outbox |}.

(** [const { token } = req.params]; the route [/:token] always binds it. *)
Definition tokenParam (req : Request) : string :=
  default EmptyString (params req !! "token").

Section WithCollaborators.

(** [utils.getLogDetails(req).logDetails] *)
Variable getLogDetails : Request → string.
(** The snapshot [await motd.getDetailedMOTD()] gives. *)
Variable getDetailedMOTD : gmap string Js.value.
(** What happens to the socket while the handler awaits that snapshot. *)
Variable meanwhile : Meanwhile.
(** The subscriptions a new connection starts with. *)
Variable defaultSubscriptions : list string.
(** The token generator behind [websockets.obtainToken]. *)
Variable generateToken : gmap string TokenEntry → string.
(** [krist.makeV2Address] *)
Variable makeV2Address : Js.value → string.
(** [addresses.verify], seen through its [{ authed, address }] result. *)
Variable verify : Request → string → Js.value → bool * Schemas.Address.
(** [process.env.PUBLIC_URL] and [process.env.FORCE_INSECURE] *)
Variable PUBLIC_URL : option string.
Variable FORCE_INSECURE : option string.

(** Modelled from the spec: [websockets.addWebsocket], the registry's
    [register] once the token is consumed: "builds the entry with the
    default subscription set". *)
Definition addWebsocket (req : Request) (ws : Ws.Socket) (token address : string)
    (privatekey : Js.value) (reg : list Connection) : list Connection :=
  reg ++ [{| conn_ws := Ws.handle ws;
             conn_token := token;
             conn_address := address;
             conn_privatekey := privatekey;
             conn_subscriptions := defaultSubscriptions |}].

(** Modelled from the spec: [websockets.obtainToken], the Credential
    Store's [issue]: a generated token is stored with the principal,
    the secret and an expiry 30 seconds ahead, and returned. *)
Definition obtainToken (address : string) (privatekey : Js.value) (now : Z)
    (tks : gmap string TokenEntry) : string * gmap string TokenEntry :=
  let token := generateToken tks in
  (token, <[token := {| tk_address := address;
                        tk_privatekey := privatekey;
                        tk_expires := now + tokenTTL |}]> tks).

(** The hello message: [{ ok: true, type: "hello", ...motd }]. *)
Definition helloMessage (motd : gmap string Js.value) : Js.value :=
  Obj (spread (<["ok" := Bool true]> (<["type" := Str "hello"]> ∅)) motd).

(** The [try] block of [app.ws("/:token", ...)]. *)
Definition connect (ws : Ws.Socket) (req : Request) (token : string) (now : Z)
    (w : World) : completion error unit * Ws.Socket * World :=
  match useToken token now (tokens w) with
  | (Throw e, tks) => (Throw e, ws, with_tokens tks w)
  | (Normal entry, tks) =>
      let address := tk_address entry in
      let privatekey := tk_privatekey entry in
      let w := with_tokens tks w in
      let w := console_log (Str ("[Websockets] Incoming connection for "
                                 +:+ address +:+ " " +:+ getLogDetails req)) w in
      let w := with_registry (addWebsocket req ws token address privatekey (registry w)) w in
      (* await motd.getDetailedMOTD(): the connection is registered already,
         and the server goes on while the handler waits *)
      let ws := during meanwhile ws in
      let '(r, ws) := sendToWS ws (helloMessage getDetailedMOTD) in
      (r, ws, w)
  end.

(** The [catch] block of [app.ws("/:token", ...)]. *)
Definition connectFailed (error : Errors.error) (ws : Ws.Socket) (req : Request)
    (token : string) (w : World) : completion Errors.error unit * Ws.Socket * World :=
  let w := console_log (Str ("[Websockets] Failed connection using token "
                             +:+ token +:+ " " +:+ getLogDetails req)) w in
  let w := console_log (inspect error) w in
  if Ws.is_open (Ws.readyState ws) then
    match sendErrorToWS ws error (log w) with
    | (Throw x, ws, l) => (Throw x, ws, with_log l w)
    | (Normal _, ws, l) => (Normal (), Ws.close ws, with_log l w)
    end
  else
    (* Just in case *)
    (Normal (), ws, with_registry (removeWebsocket ws token (registry w)) w).

(** [app.ws("/:token", ...)] *)
Definition wsRoute (ws : Ws.Socket) (req : Request) (now : Z) (w : World)
  : completion Errors.error unit * Ws.Socket * World :=
  let token := tokenParam req in
  (* websockets.promWebsocketConnectionsTotal.inc({ type: "incomplete" }) *)
  let w := {| tokens := tokens w; registry := registry w;
              connectionsIncomplete := S (connectionsIncomplete w);
              log := log w |} in
  match connect ws req token now w with
  | (Normal _, ws, w) => (Normal (), ws, w)
  | (Throw error, ws, w) => connectFailed error ws req token w
  end.

(** The base of the url handed out by [/ws/start]. *)
Definition urlBase : string :=
  let publicUrl :=
    match PUBLIC_URL with
    | Some u => if String.eqb u EmptyString then "localhost:8080" else u
    | None => "localhost:8080"
    end in
  let scheme :=
    if (String.prefix "localhost:" publicUrl
        || bool_decide (FORCE_INSECURE = Some "true"))%bool
    then "ws" else "wss" in
  scheme +:+ "://" +:+ publicUrl +:+ "/".

(** The body [/ws/start] answers with once a token is obtained. *)
Definition startResponse (token : string) : Js.value :=
  Obj (<["ok" := Bool true]>
      (<["url" := Str (urlBase +:+ token)]>
      (<["expires" := Num 30]> ∅))).

(** [app.post("/ws/start", ...)] *)
Definition startRoute (req : Request) (res : Response) (now : Z) (w : World)
  : completion Errors.error unit * Response * World :=
  let privatekey := get (body req) "privatekey" in
  if truthy privatekey then
    (* Auth as address if privatekey provided *)
    let '(authed, address) := verify req (makeV2Address privatekey) privatekey in
    if negb authed then
      let '(r, res, l) :=
        sendErrorToRes req res (Krist (newErrorAuthFailed Undefined)) (log w) in
      (r, res, with_log l w)
    else
      let '(token, tks) :=
        obtainToken (Schemas.address address) privatekey now (tokens w) in
      (Normal (), res_json (startResponse token) res, with_tokens tks w)
  else
    (* Auth as guest if no privatekey provided *)
    let '(token, tks) := obtainToken "guest" Undefined now (tokens w) in
    (Normal (), res_json (startResponse token) res, with_tokens tks w).

End WithCollaborators.

End Websockets.

(* ===================================================================== *)
(** ** src/utils.js: the text helpers *)
(* ===================================================================== *)

Module Formatting.

(** [String.fromCharCode(code)], for the codes the helpers build. *)
Definition fromCharCode (code : Z) : string :=
  String (ascii_of_nat (Z.to_nat code)) EmptyString.

(** The loop of [Utils.hexToBase36],
    [for (var i = 6; i <= 251; i += 7) { if (input <= i) ... } return 'e'],
    from the value [i] of its counter on.  [fuel] bounds the iterations
    left; the answer is [None] when it runs out first. *)
Fixpoint hexToBase36_from (fuel : nat) (i input : Z) : option string :=
  if i <=? 251 then
    if input <=? i then
      if i <=? 69 then Some (fromCharCode (48 + (i - 6) / 7))
      else Some (fromCharCode (97 + (i - 76) / 7))
    else
      match fuel with
      | O => None
      | S fuel => hexToBase36_from fuel (i + 7) input
      end
  else Some "e".

(** [Utils.hexToBase36]: the counter starts at 6. *)
Definition hexToBase36 (input : Z) : option string :=
  hexToBase36_from 36 6 input.

(** [new Array(n).join(sep)]: [n] empty slots, joined. *)
Definition arrayJoin (n : nat) (sep : string) : string :=
  String.concat sep (replicate n EmptyString).

Section WithBuiltins.

(** The built-in [String(number)], on integers: the decimal notation up to
    the 21st digit, the exponent notation from there on. *)
Variable numberToString : Z → string.

(** The longest string the engine builds; building a longer one throws a
    RangeError. *)
Variable maxStringLength : Z.

(** [Utils.padDigits], on integers.  [new Array(n)] throws a RangeError
    from [n = 2 ^ 32] on; the string is put together from the zeros of the
    [join] and [String(number)], when the engine can hold it. *)
Definition padDigits (number digits : Z) : Js.completion Errors.error string :=
  let n := Z.max (digits - Z.of_nat (String.length (numberToString number)) + 1) 0 in
  if 4294967296 <=? n then Js.Throw (Errors.RangeError "Invalid array length")
  else
    let out := arrayJoin (Z.to_nat n) "0" +:+ numberToString number in
    if maxStringLength <? Z.of_nat (String.length out)
    then Js.Throw (Errors.RangeError "Invalid string length")
    else Js.Normal out.

End WithBuiltins.

(** [n] zeros, to state what [padDigits] puts in front. *)
Fixpoint zeros (n : nat) : string :=
  match n with
  | O => EmptyString
  | S n => String "0" (zeros n)
  end.

End Formatting.

(* ===================================================================== *)
(** ** src/utils.js: limits and offsets of listings *)
(* ===================================================================== *)

Module Paging.

(** What [parseInt] and [Math.min] give: an integer, or [NaN]. *)
Inductive num : Type :=
  | NaN
  | Int (z : Z).

(** [Math.min(a, b)] *)
Definition Math_min (a b : num) : num :=
  match a, b with
  | Int x, Int y => Int (Z.min x y)
  | _, _ => NaN
  end.

(** [v || d] for an optional numeric argument ([None] when it is not
    passed). *)
Definition orNumber (v : option Z) (d : Z) : Z :=
  match v with
  | Some z => if z =? 0 then d else z
  | None => d
  end.

(** [typeof v !== 'undefined'] *)
Definition defined (v : Js.value) : bool :=
  match v with
  | Js.Undefined => false
  | _ => true
  end.

Section WithParseInt.

(** The built-in [parseInt], on the values handed to it. *)
Variable parseInt : Js.value → num.

(** [Utils.sanitiseLimit] *)
Definition sanitiseLimit (limit : Js.value) (def max : option Z) : num :=
  let def := orNumber def 50 in
  let max := orNumber max 1000 in
  if defined limit then
    Math_min (match parseInt limit with
              | Int 0 => Int def
              | parsed => parsed
              end)
             (Int max)
  else Int def.

(** [Utils.sanitiseOffset]; [None] stands for [null]. *)
Definition sanitiseOffset (offset : Js.value) : option num :=
  if defined offset then Some (parseInt offset) else None.

End WithParseInt.

End Paging.

(* ===================================================================== *)
(** ** src/transactions.js and src/names.js: the listings *)
(* ===================================================================== *)

Module Listings.
Import Js Paging.

(** The [order] option: a clause such as ['id DESC'], or a list of
    [[column, direction]] pairs. *)
Inductive Order : Type :=
  | Clause (sql : string)
  | Pairs (columns : list (Js.value * Js.value)).

(** The [where] option, as far as the listings use it. *)
Inductive Where : Type :=
  | Is (column : string) (v : string)              (* { column: v } *)
  | IsNot (column : string) (v : string)           (* { column: { $not: v } } *)
  | GreaterThan (column : string) (v : Z)          (* { column: { [Op.gt]: v } } *)
  | OneOf (column : string) (vs : list string)     (* { column: { [Op.in]: vs } } *)
  | AnyOf (alternatives : list Where).             (* { $or: [...] } *)

(** The options object handed to [findAll] or [findAndCountAll]. *)
Record FindOptions : Type := mkFindOptions {
  order : Order;
  where_ : option Where;
  limit : num;
  offset : option num
}.

Section WithParseInt.

Variable parseInt : Js.value → num.

(** The query of [Transactions.getTransactions] *)
Definition getTransactions (limit offset asc : Js.value) : FindOptions :=
  {| order := Clause ("id" +:+ (if truthy asc then EmptyString else " DESC"));
     where_ := None;
     limit := sanitiseLimit parseInt limit None None;
     offset := sanitiseOffset parseInt offset |}.

(** The query of [Transactions.getRecentTransactions] *)
Definition getRecentTransactions (limit offset : Js.value) : FindOptions :=
  {| order := Clause "id DESC";
     where_ := Some (IsNot "from" EmptyString);
     limit := sanitiseLimit parseInt limit (Some 100) None;
     offset := sanitiseOffset parseInt offset |}.

(** The query of [Transactions.getTransactionsByAddress] *)
Definition getTransactionsByAddress (address : string) (limit offset : Js.value)
  : FindOptions :=
  {| order := Clause "id DESC";
     where_ := Some (AnyOf [Is "from" address; Is "to" address]);
     limit := sanitiseLimit parseInt limit None None;
     offset := sanitiseOffset parseInt offset |}.

(** The query of [Names.getNames] *)
Definition getNames (limit offset : Js.value) : FindOptions :=
  {| order := Pairs [(Str "name", Str "ASC")];
     where_ := None;
     limit := sanitiseLimit parseInt limit None None;
     offset := sanitiseOffset parseInt offset |}.

(** The query of [Names.getNamesByAddress] *)
Definition getNamesByAddress (address : string) (limit offset : Js.value)
  : FindOptions :=
  {| order := Pairs [(Str "name", Str "ASC")];
     where_ := Some (Is "owner" address);
     limit := sanitiseLimit parseInt limit None None;
     offset := sanitiseOffset parseInt offset |}.

(** The query of [Names.lookupNames]; [addressList] is [None] when it is
    not passed. *)
Definition lookupNames (addressList : option (list string))
    (limit offset orderBy order : Js.value) : FindOptions :=
  {| Listings.order := Pairs [(Js.or orderBy (Str "name"), Js.or order (Str "ASC"))];
     where_ := match addressList with
               | Some l => Some (OneOf "owner" l)
               | None => None
               end;
     limit := sanitiseLimit parseInt limit None None;
     offset := sanitiseOffset parseInt offset |}.

(** The query of [Names.getUnpaidNames] *)
Definition getUnpaidNames (limit offset : Js.value) : FindOptions :=
  {| order := Pairs [(Str "id", Str "DESC")];
     where_ := Some (GreaterThan "unpaid" 0);
     limit := sanitiseLimit parseInt limit None None;
     offset := sanitiseOffset parseInt offset |}.

End WithParseInt.

End Listings.

(* ===================================================================== *)
(** ** src/routes/work.js: the legacy [/?getwork] answer *)
(* ===================================================================== *)

Module WorkRoot.
Import Js Utils.

(** [res.send(text)] *)
Definition res_send (text : string) (res : Response) : Response :=
  {| status := status res; sent := Some (Str text) |}.

Section WithKrist.

(** The state of the server and the number [krist.getWork()] reads from
    it. *)
Variable State : Type.
Variable getWork : State → Z.

(** [app.get('/', ...)]: the boolean tells whether [next()] was called. *)
Definition getRoot (req : Request) (res : Response) (s : State)
  : Response * bool * State :=
  if Paging.defined (get (query req) "getwork") then
    (res_send (pretty (getWork s)) res, false, s)
  else
    (res, true, s).

End WithKrist.

End WorkRoot.

(* ===================================================================== *)
(** ** The money in the ledger *)
(* ===================================================================== *)

Module Supply.
Import Schemas.

(** The sum of the balances of all stored accounts. *)
Definition totalBalance (tbl : gmap string Address) : Z :=
  map_fold (λ _ row acc, balance row + acc) 0 tbl.

End Supply.

(* ===================================================================== *)
(** ** Sample states, used to run the operations *)
(* ===================================================================== *)

Module Samples.
Import Js Schemas.

(** What [toLowerCase] does to a string of ASCII characters: the letters
    A-Z are lowered, everything else is kept.  Used to run transfers on
    ASCII addresses only. *)
(** [String(number)] as it is on the safe integers, the decimal notation;
    the runs below stay within them. *)
Definition decimal (number : Z) : string := pretty number.

Definition lowerASCII (c : ascii) : ascii :=
  let n := nat_of_ascii c in
  if ((65 <=? n)%nat && (n <=? 90)%nat)%bool then ascii_of_nat (n + 32) else c.

Fixpoint toLowerCaseASCII (s : string) : string :=
  match s with
  | EmptyString => EmptyString
  | String c rest => String (lowerASCII c) (toLowerCaseASCII rest)
  end.

Definition k1 : Address :=
  {| address := "k1"; firstseen := 0; balance := 10; totalin := 10; totalout := 0 |}.

Definition k2 : Address :=
  {| address := "k2"; firstseen := 0; balance := 3; totalin := 3; totalout := 0 |}.

(** A ledger with the two accounts above and no transaction yet. *)
Definition ledger : Transactions.World :=
  {| Transactions.addresses := <["k1" := k1]> (<["k2" := k2]> ∅);
     Transactions.transactions := [];
     Transactions.webhooks := [] |}.

(** A pending guest token, due at time 1030. *)
Definition pending : gmap string Websockets.TokenEntry :=
  <["ba90ad70" := {| Websockets.tk_address := "guest";
                     Websockets.tk_privatekey := Undefined;
                     Websockets.tk_expires := 1030 |}]> ∅.

(** A server with that token pending and nobody connected. *)
Definition server : Websockets.World :=
  {| Websockets.tokens := pending;
     Websockets.registry := [];
     Websockets.connectionsIncomplete := 0;
     Websockets.log := [] |}.

(** A socket that is open. *)
Definition openSocket : Ws.Socket :=
  {| Ws.handle := 7; Ws.readyState := Ws.OPEN; Ws.outbox := [] |}.

(** What can happen while a handler waits: nothing; a keep-alive tick of
    the server; the client closing the socket. *)
Definition quiet : Websockets.Meanwhile :=
  {| Websockets.broadcast := []; Websockets.gone := false |}.




(** The request of a connection to [/:token]. *)
Definition connectWith (token : string) : Utils.Request :=
  {| Utils.query := ∅; Utils.body := ∅; Utils.params := <["token" := token]> ∅ |}.

(** The request of a handshake, with the given body. *)
Definition startWith (body : gmap string Js.value) : Utils.Request :=
  {| Utils.query := ∅; Utils.body := body; Utils.params := ∅ |}.

(** Collaborators to run the routes with: fixed log details, a message of
    the day, two default subscriptions, a token generator, and an
    authentication that accepts the one secret of "k1". *)
Definition logDetails (req : Utils.Request) : string := "(sample)".

Definition motd : gmap string Js.value := <["motd" := Str "Welcome to Krist!"]> ∅.

Definition subscriptions : list string := ["ownTransactions"; "blocks"].

Definition nextToken (tks : gmap string Websockets.TokenEntry) : string := "cdfa11e5".

Definition v2Address (privatekey : Js.value) : string := "k1".

Definition verifyK1 (req : Utils.Request) (address : string) (privatekey : Js.value)
  : bool * Address :=
  (Js.is_str privatekey "secret", k1).

(** A names table with nothing registered. *)
Definition registrar : Names.World :=
  {| Names.names := ∅; Names.namesPurchased := 0; Names.broadcasts := [] |}.

(** [parseInt] on numbers: an integer is read back as it is; nothing else
    is understood here. *)
Definition parseIntOfNumber (v : Js.value) : Paging.num :=
  match v with
  | Num z => Paging.Int z
  | _ => Paging.NaN
  end.

End Samples.

(* ===================================================================== *)
(** * Properties *)
(* ===================================================================== *)

(** ** Utils *)

Section UtilsFacts.
Import Js Errors Utils.

(** The copy loop of [errorToJSON] overlays the copied properties, all but
    [__proto__], on the object under construction. *)
Lemma copyOwn_lookup (src out : gmap string value) (k : string) :
  copyOwn src out !! k =
    if decide (k = "__proto__") then out !! k else (src ∪ out) !! k.
Proof.
  unfold copyOwn.
  induction src as [|i x m Hi Hfold IH] using map_first_key_ind.
  - rewrite map_fold_empty, (left_id_L ∅ (∪)). by destruct (decide _).
  - rewrite map_fold_insert_first_key by done.
    destruct (decide (k = "__proto__")) as [->|Hk].
    + destruct (decide (i = "__proto__")) as [->|Hp]; [done|].
      by rewrite lookup_insert_ne.
    + destruct (decide (i = "__proto__")) as [->|Hp].
      * rewrite IH. rewrite !lookup_union, lookup_insert_ne by done. done.
      * destruct (decide (i = k)) as [->|Hne].
        -- rewrite lookup_insert_eq.
           symmetry. apply lookup_union_Some_l, lookup_insert_eq.
        -- rewrite lookup_insert_ne by done. rewrite IH.
           rewrite !lookup_union, lookup_insert_ne by done. done.
Qed.

Lemma copyOwn_union (src out : gmap string value) :
  out !! "__proto__" = None →
  copyOwn src out = delete "__proto__" src ∪ out.
Proof.
  intros Hout. apply map_eq. intros k. rewrite copyOwn_lookup.
  destruct (decide (k = "__proto__")) as [->|Hk].
  - by rewrite lookup_union, lookup_delete_eq, Hout.
  - by rewrite !lookup_union, lookup_delete_ne.
Qed.

(** A [KristError] carrying a truthy message never gets serialised: the
    read of the undeclared [message] throws. *)
Lemma errorToJSON_message (e : KristError) (log : list value) :
  truthy (message e) = true →
  errorToJSON (Krist e) log = (Throw (ReferenceError "message"), log).
Proof. intros Hm. unfold errorToJSON. by rewrite Hm. Qed.

(** Without a message, a recognised error becomes
    [{ ok: false, error: errorString, ...info }] ([info] having no property
    that is called [hasOwnProperty]). *)
Lemma errorToJSON_recognised (e : KristError) (fields : gmap string value)
    (log : list value) :
  truthy (message e) = false →
  info e = Obj fields →
  fields !! "hasOwnProperty" = None →
  errorToJSON (Krist e) log =
    (Normal (Obj (delete "__proto__" fields
                  ∪ <["error" := Str (errorString e)]> (<["ok" := Bool false]> ∅))),
     log).
Proof.
  intros Hm Hi Hh. unfold errorToJSON. rewrite Hm, Hi. cbn. rewrite Hh.
  by rewrite copyOwn_union.
Qed.

(** An error of a kind that carries neither message nor info becomes
    [{ ok: false, error: errorString }]. *)
Lemma errorToJSON_kind (e : KristError) (log : list value) :
  truthy (message e) = false →
  info e = Obj ∅ →
  errorToJSON (Krist e) log =
    (Normal (Obj (<["error" := Str (errorString e)]> (<["ok" := Bool false]> ∅))), log).
Proof.
  intros Hm Hi. rewrite (errorToJSON_recognised e ∅) by done.
  by rewrite delete_empty, (left_id_L ∅ (∪)).
Qed.

(** Any other value that has properties is answered with the bare
    [server_error] marker; its stack only reaches the console. *)
Lemma errorToJSON_unrecognised (st : option Z) (stack : value) (log : list value) :
  errorToJSON (Plain st stack) log =
    (Normal (Obj (<["error" := Str "server_error"]> (<["ok" := Bool false]> ∅))),
     log ++ [Str "[Error] Uncaught error."; stack]).
Proof. reflexivity. Qed.

(** The status [sendErrorToRes] sets, and what it sends: 200 unless the
    [cc] query parameter is the string "undefined", in which case the
    error's own [statusCode] (500 when it has none); the body goes out
    exactly when [errorToJSON] returns. *)
Lemma sendErrorToRes_status (req : Request) (res : Response) (error : Errors.error)
    (log : list value) (st : option Z) :
  statusCodeOf error = Normal st →
  let '(r, res', log') := sendErrorToRes req res error log in
  (get (query req) "cc" ≠ Str "undefined" → status res' = 200) ∧
  (get (query req) "cc" = Str "undefined" → status res' = orDefault500 st) ∧
  match errorToJSON error log with
  | (Normal json, l) => r = Normal () ∧ sent res' = Some json ∧ log' = l
  | (Throw x, l) => r = Throw x ∧ sent res' = sent res ∧ log' = l
  end.
Proof.
  intros Hst. unfold sendErrorToRes. rewrite Hst.
  destruct (errorToJSON error log) as [[json|x] l]; cbn;
    (split; [|split; [|done]]); unfold errorCodeFor; intros Hcc.
  all: destruct (get (query req) "cc") as [| | | |s| |] eqn:E; cbn; try done.
  all: try (destruct (String.eqb_spec s "undefined") as [->|Hs]; cbn; congruence).
Qed.

(** A request without a [cc] parameter is answered with status 200. *)
Lemma sendErrorToRes_no_cc (req : Request) (res : Response) (e : KristError)
    (fields : gmap string value) (log : list value) :
  query req !! "cc" = None →
  truthy (message e) = false →
  info e = Obj fields →
  fields !! "hasOwnProperty" = None →
  sendErrorToRes req res (Krist e) log =
    (Normal (),
     {| status := 200;
        sent := Some (Obj (delete "__proto__" fields
                           ∪ <["error" := Str (errorString e)]>
                               (<["ok" := Bool false]> ∅))) |},
     log).
Proof.
  intros Hcc Hm Hi Hh. unfold sendErrorToRes.
  rewrite (errorToJSON_recognised e fields log Hm Hi Hh).
  unfold errorCodeFor, get. rewrite Hcc. reflexivity.
Qed.

(** C4 (the code departs from the claim): serialising a recognised error
    that carries a human-readable message, here
    [new errors.KristError("Invalid parameter")], does not return
    [{ ok: false, error: "unknown_error", ... }]: it throws the
    ReferenceError raised by reading the undeclared [message]. *)
Theorem errorToJSON_throws_on_message :
  errorToJSON (Krist (newKristError (Str "Invalid parameter"))) [] =
    (Throw (ReferenceError "message"), []).
Proof. reflexivity. Qed.

(** C10 (the code departs from the claim): for a request without [cc] and
    the error [new errors.KristError("Invalid parameter")],
    [sendErrorToRes] sets the status to 200 and then throws out of
    [errorToJSON] before [res.json] runs: nothing is sent. *)
Theorem sendErrorToRes_sends_nothing_on_message :
  sendErrorToRes {| query := ∅; body := ∅; params := ∅ |} freshResponse
      (Krist (newKristError (Str "Invalid parameter"))) [] =
    (Throw (ReferenceError "message"), {| status := 200; sent := None |}, []).
Proof. reflexivity. Qed.

End UtilsFacts.

(** ** Transactions *)

Section TransactionsFacts.
Import Js Errors Schemas Transactions.

Context (toLowerCase : string → string).

Local Abbreviation pushTransaction := (Transactions.pushTransaction toLowerCase).

Lemma debited_lookup (sender : Address) (amount : Z) (tbl : gmap string Address)
    (k : string) :
  debited sender amount tbl !! k =
    if decide (address sender = k)
    then (λ r, add_totalout amount (add_balance (- amount) r)) <$> tbl !! k
    else tbl !! k.
Proof.
  unfold debited, update_row.
  destruct (decide (address sender = k)) as [<-|Hne].
  - rewrite !lookup_alter_eq. by destruct (tbl !! address sender).
  - by rewrite !lookup_alter_ne.
Qed.

(** [pushTransaction], with its intermediate states named. *)
Lemma pushTransaction_unfold (w : World) (sender : Address)
    (recipientAddress : string) (amount : Z) (metadata : Js.value) (now : Z) :
  pushTransaction sender recipientAddress amount metadata now w =
    let row := transferRow w sender recipientAddress amount metadata now in
    match addresses w !! recipientAddress with
    | Some recipient =>
        (Normal row,
         {| addresses :=
              update_row (λ r, add_totalout amount (add_balance amount r))
                (address recipient) (debited sender amount (addresses w));
            transactions := transactions w ++ [row];
            webhooks := webhooks w ++ [row] |})
    | None =>
        let created :=
          address_create {| address := toLowerCase recipientAddress; firstseen := now;
                            balance := amount; totalin := amount; totalout := 0 |}
                         (debited sender amount (addresses w)) in
        (settle created.1 (Normal row),
         {| addresses := created.2;
            transactions := transactions w ++ [row];
            webhooks := webhooks w ++ [row] |})
    end.
Proof.
  unfold pushTransaction, getAddress.
  destruct (addresses w !! recipientAddress) as [recipient|]; [reflexivity|].
  cbn. fold (debited sender amount (addresses w)).
  by destruct (address_create _ _).
Qed.

(** A transfer to a stored recipient: what is returned and what is left
    behind. *)
Lemma pushTransaction_existing (w : World) (sender recipient : Address)
    (recipientAddress : string) (amount : Z) (metadata : Js.value) (now : Z) :
  addresses w !! recipientAddress = Some recipient →
  pushTransaction sender recipientAddress amount metadata now w =
    (Normal (transferRow w sender recipientAddress amount metadata now),
     {| addresses :=
          update_row (λ r, add_totalout amount (add_balance amount r)) (address recipient)
            (debited sender amount (addresses w));
        transactions :=
          transactions w ++ [transferRow w sender recipientAddress amount metadata now];
        webhooks :=
          webhooks w ++ [transferRow w sender recipientAddress amount metadata now] |}).
Proof. intros Hr. rewrite pushTransaction_unfold, Hr. reflexivity. Qed.

(** A transfer to an address without an account, when the lower-cased
    address is free as well: the account is created. *)
Lemma pushTransaction_new (w : World) (sender : Address)
    (recipientAddress : string) (amount : Z) (metadata : Js.value) (now : Z) :
  addresses w !! recipientAddress = None →
  addresses w !! toLowerCase recipientAddress = None →
  pushTransaction sender recipientAddress amount metadata now w =
    (Normal (transferRow w sender recipientAddress amount metadata now),
     {| addresses :=
          <[toLowerCase recipientAddress :=
              {| address := toLowerCase recipientAddress; firstseen := now;
                 balance := amount; totalin := amount; totalout := 0 |}]>
            (debited sender amount (addresses w));
        transactions :=
          transactions w ++ [transferRow w sender recipientAddress amount metadata now];
        webhooks :=
          webhooks w ++ [transferRow w sender recipientAddress amount metadata now] |}).
Proof.
  intros Hr Hl. rewrite pushTransaction_unfold, Hr.
  unfold address_create. cbn [address].
  rewrite debited_lookup, Hl. by destruct (decide _).
Qed.

(** Whatever the amount, the sender's row has received both updates when
    [pushTransaction] is done, also when it is rejected. *)
Lemma pushTransaction_sender_row (w : World) (sender : Address)
    (recipientAddress : string) (amount : Z) (metadata : Js.value) (now : Z) :
  addresses w !! address sender = Some sender →
  recipientAddress ≠ address sender →
  keyed (addresses w) →
  addresses (pushTransaction sender recipientAddress amount metadata now w).2
    !! address sender
  = Some (add_totalout amount (add_balance (- amount) sender)).
Proof.
  intros Hs Hne Hkey. rewrite pushTransaction_unfold.
  assert (debited sender amount (addresses w) !! address sender
          = Some (add_totalout amount (add_balance (- amount) sender))) as Hd.
  { by rewrite debited_lookup, decide_True, Hs. }
  destruct (addresses w !! recipientAddress) as [recipient|] eqn:Hr; cbn.
  - unfold update_row at 1.
    rewrite lookup_alter_ne by (rewrite (Hkey _ _ Hr); done). done.
  - unfold address_create. cbn [address].
    destruct (debited sender amount (addresses w) !! toLowerCase recipientAddress)
      as [taken|] eqn:Ht; cbn; [done|].
    rewrite lookup_insert_ne; [done|]. intros Heq. by rewrite Heq, Hd in Ht.
Qed.

(** The only rejection of [pushTransaction] is the refusal of the new
    account's row; it is never an error of the [KristError] family. *)
Lemma pushTransaction_rejection (w : World) (sender : Address)
    (recipientAddress : string) (amount : Z) (metadata : Js.value) (now : Z)
    (e : error) :
  (pushTransaction sender recipientAddress amount metadata now w).1 = Throw e →
  e = UniqueConstraintError.
Proof.
  rewrite pushTransaction_unfold.
  destruct (addresses w !! recipientAddress) as [recipient|]; cbn; [done|].
  unfold address_create.
  destruct (debited sender amount (addresses w) !! _); cbn; congruence.
Qed.

(** The row of a stored recipient other than the sender, after the
    transfer: [balance] and [totalout] have grown, [totalin] has not. *)
Lemma pushTransaction_recipient_row (w : World) (sender recipient : Address)
    (amount : Z) (metadata : Js.value) (now : Z) :
  addresses w !! address recipient = Some recipient →
  address recipient ≠ address sender →
  addresses (pushTransaction sender (address recipient) amount metadata now w).2
    !! address recipient
  = Some (add_totalout amount (add_balance amount recipient)).
Proof.
  intros Hr Hne. rewrite (pushTransaction_existing _ _ recipient) by done. cbn.
  unfold update_row at 1. rewrite lookup_alter_eq, debited_lookup.
  rewrite decide_False, Hr by done. done.
Qed.

(** C1, amended: [pushTransaction] does not validate the amount.  For
    every amount, also [amount <= 0] or [amount > sender.balance], it is
    never rejected with [InsufficientFunds] (nor with any other
    [KristError]), and the stored balance of the sender is debited by the
    amount and its [totalout] raised by it (the recipient being another
    address). *)
Theorem pushTransaction_debits_any_amount (w : World) (sender : Address)
    (recipientAddress : string) (amount : Z) (metadata : Js.value) (now : Z) :
  addresses w !! address sender = Some sender →
  recipientAddress ≠ address sender →
  keyed (addresses w) →
  (∀ e, (pushTransaction sender recipientAddress amount metadata now w).1
        ≠ Throw (Krist e)) ∧
  addresses (pushTransaction sender recipientAddress amount metadata now w).2
    !! address sender
    = Some {| address := address sender; firstseen := firstseen sender;
              balance := balance sender - amount;
              totalin := totalin sender;
              totalout := totalout sender + amount |} ∧
  balanceOf (address sender)
    (pushTransaction sender recipientAddress amount metadata now w).2
    = balance sender - amount.
Proof.
  intros Hs Hne Hkey.
  pose proof (pushTransaction_sender_row w sender recipientAddress amount
                metadata now Hs Hne Hkey) as Hrow.
  split; [|split].
  - intros e He. by apply pushTransaction_rejection in He.
  - rewrite Hrow. reflexivity.
  - unfold balanceOf. rewrite Hrow. cbn. lia.
Qed.

(** C2, amended: for every pair of distinct stored accounts A and B and
    every amount v with 0 < v <= balance(A), transfer(A, B, v) succeeds,
    decreases balance(A) by exactly v, increases balance(B) by exactly v
    and leaves balance(A) + balance(B) unchanged. *)
Theorem pushTransaction_conserves_value (w : World) (A B : Address) (v : Z)
    (metadata : Js.value) (now : Z) :
  addresses w !! address A = Some A →
  addresses w !! address B = Some B →
  address A ≠ address B →
  0 < v ≤ balance A →
  (pushTransaction A (address B) v metadata now w).1
    = Normal (transferRow w A (address B) v metadata now) ∧
  balanceOf (address A) (pushTransaction A (address B) v metadata now w).2
    = balanceOf (address A) w - v ∧
  balanceOf (address B) (pushTransaction A (address B) v metadata now w).2
    = balanceOf (address B) w + v ∧
  balanceOf (address A) (pushTransaction A (address B) v metadata now w).2
    + balanceOf (address B) (pushTransaction A (address B) v metadata now w).2
    = balanceOf (address A) w + balanceOf (address B) w.
Proof.
  intros HA HB Hne Hv.
  assert (balanceOf (address A) (pushTransaction A (address B) v metadata now w).2
          = balanceOf (address A) w - v) as Ha.
  { rewrite (pushTransaction_existing _ _ B) by done. unfold balanceOf. cbn.
    unfold update_row at 1. rewrite lookup_alter_ne by done.
    rewrite debited_lookup, decide_True, HA by done. cbn. lia. }
  assert (balanceOf (address B) (pushTransaction A (address B) v metadata now w).2
          = balanceOf (address B) w + v) as Hb.
  { unfold balanceOf.
    rewrite (pushTransaction_recipient_row w A B v metadata now HB) by done.
    rewrite HB. reflexivity. }
  split; [|split; [|split]]; [|done|done|lia].
  by rewrite (pushTransaction_existing _ _ B).
Qed.

(** A transfer to oneself: the row is debited and credited, so the balance
    is back where it was, and [totalout] has grown twice. *)
Lemma pushTransaction_to_self (w : World) (A : Address) (v : Z)
    (metadata : Js.value) (now : Z) :
  addresses w !! address A = Some A →
  addresses (pushTransaction A (address A) v metadata now w).2 !! address A
  = Some {| address := address A; firstseen := firstseen A;
            balance := balance A; totalin := totalin A;
            totalout := totalout A + v + v |}.
Proof.
  intros HA. rewrite (pushTransaction_existing _ _ A) by done. cbn.
  unfold update_row at 1. rewrite lookup_alter_eq, debited_lookup.
  rewrite decide_True, HA by done. cbn.
  unfold add_totalout, add_balance. cbn. do 2 f_equal. lia.
Qed.

(** Accounts other than the sender's and the recipient's are not
    touched. *)
Lemma pushTransaction_frame (w : World) (sender : Address)
    (recipientAddress : string) (amount : Z) (metadata : Js.value) (now : Z)
    (other : string) :
  keyed (addresses w) →
  other ≠ address sender →
  other ≠ recipientAddress →
  other ≠ toLowerCase recipientAddress →
  addresses (pushTransaction sender recipientAddress amount metadata now w).2 !! other
  = addresses w !! other.
Proof.
  intros Hkey Hs Hr Hl. rewrite pushTransaction_unfold.
  assert (debited sender amount (addresses w) !! other = addresses w !! other) as Hd.
  { by rewrite debited_lookup, decide_False. }
  destruct (addresses w !! recipientAddress) as [recipient|] eqn:E; cbn.
  - unfold update_row at 1.
    rewrite lookup_alter_ne by (rewrite (Hkey _ _ E); done). done.
  - unfold address_create. cbn [address].
    destruct (debited sender amount (addresses w) !! toLowerCase recipientAddress);
      cbn; [done|].
    by rewrite lookup_insert_ne.
Qed.

(** An address without an account, free in lower case too, gets a new
    account seeded with the amount. *)
Lemma pushTransaction_creates_recipient (w : World) (sender : Address)
    (recipientAddress : string) (amount : Z) (metadata : Js.value) (now : Z) :
  addresses w !! recipientAddress = None →
  addresses w !! toLowerCase recipientAddress = None →
  addresses (pushTransaction sender recipientAddress amount metadata now w).2
    !! toLowerCase recipientAddress
  = Some {| address := toLowerCase recipientAddress; firstseen := now;
            balance := amount; totalin := amount; totalout := 0 |}.
Proof.
  intros Hr Hl. rewrite pushTransaction_new by done. cbn.
  apply lookup_insert_eq.
Qed.

(** C8: [createTransaction(to, from, value, name, op)] creates a
    transaction row with exactly those fields and the current time, hands
    it to the webhooks, resolves with it, and leaves the table of
    accounts, hence every balance, totalin and totalout, as it was. *)
Theorem createTransaction_records_and_notifies (to from : string) (value : Z)
    (name op : Js.value) (now : Z) (w : World) :
  ∃ transaction,
    createTransaction to from value name op now w
      = (Normal transaction,
         {| addresses := addresses w;
            transactions := transactions w ++ [transaction];
            webhooks := webhooks w ++ [transaction] |}) ∧
    Schemas.to transaction = to ∧
    Schemas.from transaction = from ∧
    Schemas.value transaction = value ∧
    Schemas.name transaction = name ∧
    Schemas.op transaction = op ∧
    Schemas.time transaction = now.
Proof. eexists. repeat split. Qed.

End TransactionsFacts.

(** The transfers, run on the sample ledger (its addresses are ASCII). *)

Section LedgerRuns.
Import Js Errors Schemas Transactions.

Local Abbreviation pushTransaction :=
  (Transactions.pushTransaction Samples.toLowerCaseASCII).

(** The sample ledger stores its rows under their addresses. *)
Lemma keyed_ledger : keyed (addresses Samples.ledger).
Proof.
  unfold keyed, Samples.ledger. cbn.
  apply map_Forall_insert_2; [reflexivity|].
  apply map_Forall_insert_2; [reflexivity|].
  apply map_Forall_empty.
Qed.

(** C1, as stated, fails: a transfer of 25 from an account holding 10 is
    not rejected; it resolves with the recorded transaction, leaves the
    sender at -15 and credits the recipient. *)
Lemma pushTransaction_overdraft_goes_through :
  25 > balance Samples.k1 ∧
  (pushTransaction Samples.k1 "k2" 25 (Str "rent") 1000 Samples.ledger).1
    = Normal {| id := 1; to := "k2"; from := "k1"; value := 25;
                name := Null; time := 1000; op := Str "rent" |} ∧
  balanceOf "k1" Samples.ledger = 10 ∧
  balanceOf "k1" (pushTransaction Samples.k1 "k2" 25 (Str "rent") 1000 Samples.ledger).2
    = -15 ∧
  balanceOf "k2" Samples.ledger = 3 ∧
  balanceOf "k2" (pushTransaction Samples.k1 "k2" 25 (Str "rent") 1000 Samples.ledger).2
    = 28.
Proof. vm_compute. repeat split; reflexivity. Qed.

Lemma pushTransaction_debits_any_amount_witness :
  balanceOf "k1"
    (pushTransaction Samples.k1 "k2" 25 (Str "rent") 1000 Samples.ledger).2
  = 10 - 25.
Proof.
  apply (pushTransaction_debits_any_amount Samples.toLowerCaseASCII Samples.ledger Samples.k1 "k2" 25
           (Str "rent") 1000).
  - reflexivity.
  - discriminate.
  - exact keyed_ledger.
Defined.

(** C2, as stated, fails when the two accounts are the same one: a
    transfer of 5 from "k1" to "k1" succeeds and leaves its balance at 10,
    not at 10 - 5. *)
Lemma pushTransaction_to_self_keeps_balance :
  addresses Samples.ledger !! "k1" = Some Samples.k1 ∧
  0 < 5 ≤ balance Samples.k1 ∧
  (pushTransaction Samples.k1 "k1" 5 Null 1000 Samples.ledger).1
    = Normal {| id := 1; to := "k1"; from := "k1"; value := 5;
                name := Null; time := 1000; op := Null |} ∧
  balanceOf "k1" (pushTransaction Samples.k1 "k1" 5 Null 1000 Samples.ledger).2
    = 10.
Proof. vm_compute. repeat split; try reflexivity; discriminate. Qed.

Lemma pushTransaction_conserves_value_witness :
  balanceOf "k1" (pushTransaction Samples.k1 "k2" 4 Null 1000 Samples.ledger).2
  + balanceOf "k2" (pushTransaction Samples.k1 "k2" 4 Null 1000 Samples.ledger).2
  = balanceOf "k1" Samples.ledger + balanceOf "k2" Samples.ledger.
Proof.
  apply (pushTransaction_conserves_value Samples.toLowerCaseASCII Samples.ledger Samples.k1 Samples.k2 4
           Null 1000).
  - reflexivity.
  - reflexivity.
  - discriminate.
  - cbn. lia.
Defined.

(** The address of a new account is stored in lower case. *)
Example pushTransaction_new_account_lower_case :
  addresses (pushTransaction Samples.k1 "K9" 4 Null 1000 Samples.ledger).2 !! "k9"
  = Some {| address := "k9"; firstseen := 1000;
            balance := 4; totalin := 4; totalout := 0 |}.
Proof. reflexivity. Qed.

(** C3 (the code departs from the claim): a transfer of 5 from "k1" to the
    stored account "k2" (balance 3, totalin 3, totalout 0) leaves "k2"
    with balance 8, totalin still 3 and totalout 5: the credit of an
    existing recipient goes to [totalout] instead of [totalin]. *)
Theorem pushTransaction_credits_totalout :
  addresses (pushTransaction Samples.k1 "k2" 5 Null 1000 Samples.ledger).2 !! "k2"
  = Some {| address := "k2"; firstseen := 0;
            balance := 8; totalin := 3; totalout := 5 |}.
Proof. reflexivity. Qed.

End LedgerRuns.

(** ** Names *)

Section NamesFacts.
Import Js Errors Names.

(** [nameToJSON] shows the unpaid amount as it is stored. *)
Lemma nameToJSON_unpaid (n : Name) :
  Js.or (Num (unpaid n)) (Num 0) = Num (unpaid n).
Proof.
  unfold Js.or. cbn. destruct (Z.eqb_spec (unpaid n) 0) as [->|]; reflexivity.
Qed.

(** A second purchase of a stored name is refused by the table and
    nothing else happens. *)
Lemma createName_taken (nameCost : Z) (name owner : string) (now : Z) (w : World)
    (held : Name) :
  names w !! name = Some held →
  createName nameCost name owner now w = (Throw Schemas.UniqueConstraintError, w).
Proof.
  intros Hn. unfold createName, name_create. cbn. rewrite Hn. by destruct w.
Qed.

(** C5: a successful purchase of a name (the name is free) creates the
    record with [unpaid] at the configured cost, [owner] and
    [original_owner] at the buyer and [transferred] null; an event
    [{ type: "event", event: "name", name: nameToJSON(record) }] is handed
    to the broadcaster; the record is what the call returns. *)
Theorem createName_creates_and_broadcasts (nameCost : Z) (name owner : string)
    (now : Z) (w : World) :
  names w !! name = None →
  ∃ dbName,
    createName nameCost name owner now w
      = (Normal dbName,
         {| names := <[name := dbName]> (names w);
            namesPurchased := S (namesPurchased w);
            broadcasts :=
              broadcasts w ++
                [Obj (<["type" := Str "event"]>
                     (<["event" := Str "name"]>
                     (<["name" := nameToJSON dbName]> ∅)))] |}) ∧
    Names.name dbName = name ∧
    Names.unpaid dbName = getNameCost nameCost ∧
    Names.owner dbName = owner ∧
    Names.original_owner dbName = owner ∧
    Names.transferred dbName = Null ∧
    nameToJSON dbName
      = Obj (<["name" := Str name]>
            (<["owner" := Str owner]>
            (<["original_owner" := Str owner]>
            (<["registered" := Date now]>
            (<["updated" := Date now]>
            (<["transferred" := Null]>
            (<["a" := Undefined]>
            (<["unpaid" := Num nameCost]> ∅)))))))).
Proof.
  intros Hfree. eexists. unfold createName, name_create. cbn [Names.name].
  rewrite Hfree. repeat split.
  unfold nameToJSON. rewrite nameToJSON_unpaid. reflexivity.
Qed.

Lemma createName_creates_and_broadcasts_witness :
  ∃ dbName,
    (createName 500 "krist" "k1" 1000 Samples.registrar).1 = Normal dbName ∧
    Names.unpaid dbName = 500 ∧
    Names.owner dbName = "k1".
Proof.
  destruct (createName_creates_and_broadcasts 500 "krist" "k1" 1000 Samples.registrar)
    as (dbName & Hrun & _ & Hunpaid & Howner & _).
  - reflexivity.
  - exists dbName. rewrite Hrun. repeat split; assumption.
Defined.

End NamesFacts.

(** ** Work *)

Section WorkFacts.
Import Js Utils Work.

(** C9: the work endpoint answers exactly [{ ok: true, work: w }] where
    [w] is what [krist.getWork()] gives, unmodified, and leaves the state
    of the server as it was. *)
Theorem getWorkRoute_reports_work (State : Type) (getWork : State → Js.value)
    (req : Request) (res : Response) (s : State) :
  getWorkRoute State getWork req res s
    = ({| status := status res;
          sent := Some (Obj (<["ok" := Bool true]> (<["work" := getWork s]> ∅))) |},
       s).
Proof. reflexivity. Qed.

End WorkFacts.

(** ** Websockets *)

Section WebsocketsFacts.
Import Js Errors Utils Websockets.

Context (getLogDetails : Request → string)
        (getDetailedMOTD : gmap string Js.value)
        (meanwhile : Meanwhile)
        (defaultSubscriptions : list string)
        (generateToken : gmap string TokenEntry → string)
        (makeV2Address : Js.value → string)
        (verify : Request → string → Js.value → bool * Schemas.Address)
        (PUBLIC_URL FORCE_INSECURE : option string).

Local Abbreviation wsRoute :=
  (wsRoute getLogDetails getDetailedMOTD meanwhile defaultSubscriptions).
Local Abbreviation startRoute :=
  (startRoute generateToken makeV2Address verify PUBLIC_URL FORCE_INSECURE).
Local Abbreviation urlBase := (urlBase PUBLIC_URL FORCE_INSECURE).


(** A consumed token is gone. *)
Lemma useToken_consumes (token : string) (now : Z) (tks tks' : gmap string TokenEntry)
    (entry : TokenEntry) :
  useToken token now tks = (Normal entry, tks') →
  tks !! token = Some entry ∧ tks' = delete token tks.
Proof.
  unfold useToken. destruct (tks !! token) as [held|]; [|done].
  destruct (tk_expires held <? now); intros [= <- <-]. done.
Qed.

(** The connection handler on an open socket that stays open, token
    consumed: the connection is registered, and the hello follows what was
    broadcast while the handler waited. *)
Lemma wsRoute_connected (ws : Ws.Socket) (req : Request) (now : Z) (w : World)
    (entry : TokenEntry) (tks : gmap string TokenEntry) :
  useToken (tokenParam req) now (tokens w) = (Normal entry, tks) →
  Ws.readyState ws = Ws.OPEN →
  gone meanwhile = false →
  wsRoute ws req now w =
    (Normal (),
     {| Ws.handle := Ws.handle ws; Ws.readyState := Ws.OPEN;
        Ws.outbox :=
          Ws.outbox ws ++ broadcast meanwhile ++ [helloMessage getDetailedMOTD] |},
     {| tokens := tks;
        registry :=
          registry w ++
            [{| conn_ws := Ws.handle ws;
                conn_token := tokenParam req;
                conn_address := tk_address entry;
                conn_privatekey := tk_privatekey entry;
                conn_subscriptions := defaultSubscriptions |}];
        connectionsIncomplete := S (connectionsIncomplete w);
        log := log w ++ [Str ("[Websockets] Incoming connection for "
                              +:+ tk_address entry +:+ " " +:+ getLogDetails req)] |}).
Proof.
  intros Htok Hopen Hstays. unfold Websockets.wsRoute, connect. cbn [tokens].
  rewrite Htok. unfold sendToWS, Ws.send, during. rewrite Hopen, Hstays.
  cbn. by rewrite app_assoc.
Qed.



(** The connection handler on a socket that is not open, token refused:
    nothing is written, and the registry is only purged of the socket. *)
Lemma wsRoute_refused_not_open (ws : Ws.Socket) (req : Request) (now : Z) (w : World)
    (e : error) (tks : gmap string TokenEntry) :
  useToken (tokenParam req) now (tokens w) = (Throw e, tks) →
  Ws.readyState ws ≠ Ws.OPEN →
  (wsRoute ws req now w).1 = (Normal (), ws) ∧
  registry (wsRoute ws req now w).2
    = removeWebsocket ws (tokenParam req) (registry w) ∧
  tokens (wsRoute ws req now w).2 = tks.
Proof.
  intros Htok Hclosed.
  unfold Websockets.wsRoute, connect. cbn [tokens]. rewrite Htok.
  unfold connectFailed.
  destruct (Ws.readyState ws); [done| |done|done]; congruence.
Qed.


(** The handshake without a secret: a guest token is issued. *)
Lemma startRoute_guest (req : Request) (res : Response) (now : Z) (w : World) :
  truthy (get (body req) "privatekey") = false →
  startRoute req res now w =
    (Normal (),
     {| status := status res;
        sent := Some (Obj (<["ok" := Bool true]>
                          (<["url" := Str (urlBase +:+ generateToken (tokens w))]>
                          (<["expires" := Num 30]> ∅)))) |},
     with_tokens (<[generateToken (tokens w) :=
                      {| tk_address := "guest"; tk_privatekey := Undefined;
                         tk_expires := now + 30 |}]> (tokens w)) w).
Proof. intros Hpk. unfold Websockets.startRoute. rewrite Hpk. reflexivity. Qed.

(** The handshake with a secret that authenticates: a token is issued for
    the address. *)
Lemma startRoute_authed (req : Request) (res : Response) (now : Z) (w : World)
    (address : Schemas.Address) :
  truthy (get (body req) "privatekey") = true →
  verify req (makeV2Address (get (body req) "privatekey")) (get (body req) "privatekey")
    = (true, address) →
  startRoute req res now w =
    (Normal (),
     {| status := status res;
        sent := Some (Obj (<["ok" := Bool true]>
                          (<["url" := Str (urlBase +:+ generateToken (tokens w))]>
                          (<["expires" := Num 30]> ∅)))) |},
     with_tokens (<[generateToken (tokens w) :=
                      {| tk_address := Schemas.address address;
                         tk_privatekey := get (body req) "privatekey";
                         tk_expires := now + 30 |}]> (tokens w)) w).
Proof.
  intros Hpk Hv. unfold Websockets.startRoute. rewrite Hpk, Hv. reflexivity.
Qed.

(** The handshake with a secret that does not authenticate: the
    [auth_failed] body, and the state as it was. *)
Lemma startRoute_auth_failed (req : Request) (res : Response) (now : Z) (w : World)
    (address : Schemas.Address) :
  truthy (get (body req) "privatekey") = true →
  verify req (makeV2Address (get (body req) "privatekey")) (get (body req) "privatekey")
    = (false, address) →
  startRoute req res now w =
    (Normal (),
     {| status := errorCodeFor req (Some 401);
        sent := Some (Obj (<["error" := Str "auth_failed"]>
                          (<["ok" := Bool false]> ∅))) |},
     w).
Proof.
  intros Hpk Hv. unfold Websockets.startRoute. rewrite Hpk, Hv. cbn [negb].
  unfold sendErrorToRes. cbn [statusCodeOf newErrorAuthFailed statusCode].
  rewrite (errorToJSON_kind _) by done.
  by destruct w.
Qed.

Lemma string_append_assoc (s1 s2 s3 : string) :
  (s1 +:+ s2) +:+ s3 = s1 +:+ s2 +:+ s3.
Proof.
  induction s1 as [|c s1 IH]; [reflexivity|].
  change (String c ((s1 +:+ s2) +:+ s3) = String c (s1 +:+ s2 +:+ s3)).
  by rewrite IH.
Qed.

(** The url the handshake hands out, written out: scheme, host, slash,
    token. *)
Lemma urlBase_with_token (token : string) :
  urlBase +:+ token =
    (if (String.prefix "localhost:"
           match PUBLIC_URL with
           | Some configured =>
               if String.eqb configured EmptyString then "localhost:8080" else configured
           | None => "localhost:8080"
           end
         || bool_decide (FORCE_INSECURE = Some "true"))%bool
     then "ws" else "wss")
    +:+ "://"
    +:+ match PUBLIC_URL with
        | Some configured =>
            if String.eqb configured EmptyString then "localhost:8080" else configured
        | None => "localhost:8080"
        end
    +:+ "/" +:+ token.
Proof.
  unfold Websockets.urlBase. by rewrite !string_append_assoc.
Qed.

(** C6: the handshake answers [{ ok: true, url, expires: 30 }], where [url]
    is the connect endpoint [ws://host/token] or [wss://host/token] of a
    freshly issued token (for the guest when no secret is supplied, that
    is, when [body.privatekey] is absent or falsy; for the authenticated
    address when the supplied secret authenticates); when the supplied
    secret fails to authenticate it answers the [auth_failed] error body
    and issues no token. *)
Theorem startRoute_handshake (req : Request) (res : Response) (now : Z) (w : World) :
  let privatekey := get (body req) "privatekey" in
  let host :=
    match PUBLIC_URL with
    | Some configured =>
        if String.eqb configured EmptyString then "localhost:8080" else configured
    | None => "localhost:8080"
    end in
  let scheme :=
    if (String.prefix "localhost:" host
        || bool_decide (FORCE_INSECURE = Some "true"))%bool
    then "ws" else "wss" in
  let token := generateToken (tokens w) in
  let answer :=
    {| status := status res;
       sent := Some (Obj (<["ok" := Bool true]>
                         (<["url" := Str (scheme +:+ "://" +:+ host +:+ "/" +:+ token)]>
                         (<["expires" := Num 30]> ∅)))) |} in
  (truthy privatekey = false →
   startRoute req res now w =
     (Normal (), answer,
      with_tokens (<[token := {| tk_address := "guest"; tk_privatekey := Undefined;
                                 tk_expires := now + 30 |}]> (tokens w)) w)) ∧
  (∀ account,
     truthy privatekey = true →
     verify req (makeV2Address privatekey) privatekey = (true, account) →
     startRoute req res now w =
       (Normal (), answer,
        with_tokens (<[token := {| tk_address := Schemas.address account;
                                   tk_privatekey := privatekey;
                                   tk_expires := now + 30 |}]> (tokens w)) w)) ∧
  (∀ account,
     truthy privatekey = true →
     verify req (makeV2Address privatekey) privatekey = (false, account) →
     (startRoute req res now w).1.1 = Normal () ∧
     sent (startRoute req res now w).1.2 =
       Some (Obj (<["error" := Str "auth_failed"]> (<["ok" := Bool false]> ∅))) ∧
     (startRoute req res now w).2 = w).
Proof.
  cbn zeta. split; [|split].
  - intros Hpk. rewrite (startRoute_guest req res now w Hpk).
    by rewrite urlBase_with_token.
  - intros account Hpk Hv. rewrite (startRoute_authed req res now w account Hpk Hv).
    by rewrite urlBase_with_token.
  - intros account Hpk Hv.
    by rewrite (startRoute_auth_failed req res now w account Hpk Hv).
Qed.

End WebsocketsFacts.

(** The routes, run on the sample server. *)

(** A token presented after its 30 seconds is refused and purged. *)
Example useToken_expired :
  Websockets.useToken "ba90ad70" 1031 Samples.pending
  = (Js.Throw (Errors.Krist (Errors.newErrorTokenExpired Js.Undefined)), ∅).
Proof. reflexivity. Qed.



Lemma startRoute_handshake_witness :
  Websockets.startRoute Samples.nextToken Samples.v2Address Samples.verifyK1 None None
    (Samples.startWith ∅) Utils.freshResponse 1000 Samples.server
  = (Js.Normal (),
     {| Utils.status := 200;
        Utils.sent :=
          Some (Js.Obj (<["ok" := Js.Bool true]>
                       (<["url" := Js.Str "ws://localhost:8080/cdfa11e5"]>
                       (<["expires" := Js.Num 30]> ∅)))) |},
     Websockets.with_tokens
       (<["cdfa11e5" := {| Websockets.tk_address := "guest";
                           Websockets.tk_privatekey := Js.Undefined;
                           Websockets.tk_expires := 1000 + 30 |}]> Samples.pending)
       Samples.server) ∧
  Websockets.startRoute Samples.nextToken Samples.v2Address Samples.verifyK1
    (Some "krist.ceriat.net") None
    (Samples.startWith (<["privatekey" := Js.Str "secret"]> ∅))
    Utils.freshResponse 1000 Samples.server
  = (Js.Normal (),
     {| Utils.status := 200;
        Utils.sent :=
          Some (Js.Obj (<["ok" := Js.Bool true]>
                       (<["url" := Js.Str "wss://krist.ceriat.net/cdfa11e5"]>
                       (<["expires" := Js.Num 30]> ∅)))) |},
     Websockets.with_tokens
       (<["cdfa11e5" := {| Websockets.tk_address := "k1";
                           Websockets.tk_privatekey := Js.Str "secret";
                           Websockets.tk_expires := 1000 + 30 |}]> Samples.pending)
       Samples.server) ∧
  (Websockets.startRoute Samples.nextToken Samples.v2Address Samples.verifyK1 None None
     (Samples.startWith (<["privatekey" := Js.Str "guess"]> ∅))
     Utils.freshResponse 1000 Samples.server).1.1 = Js.Normal () ∧
  Utils.sent
    (Websockets.startRoute Samples.nextToken Samples.v2Address Samples.verifyK1 None None
       (Samples.startWith (<["privatekey" := Js.Str "guess"]> ∅))
       Utils.freshResponse 1000 Samples.server).1.2 =
    Some (Js.Obj (<["error" := Js.Str "auth_failed"]> (<["ok" := Js.Bool false]> ∅))) ∧
  (Websockets.startRoute Samples.nextToken Samples.v2Address Samples.verifyK1 None None
     (Samples.startWith (<["privatekey" := Js.Str "guess"]> ∅))
     Utils.freshResponse 1000 Samples.server).2 = Samples.server.
Proof.
  split; [|split].
  - apply (proj1 (startRoute_handshake Samples.nextToken Samples.v2Address
                    Samples.verifyK1 None None (Samples.startWith ∅)
                    Utils.freshResponse 1000 Samples.server)).
    reflexivity.
  - refine (proj1 (proj2 (startRoute_handshake Samples.nextToken Samples.v2Address
                            Samples.verifyK1 (Some "krist.ceriat.net") None
                            (Samples.startWith (<["privatekey" := Js.Str "secret"]> ∅))
                            Utils.freshResponse 1000 Samples.server))
              Samples.k1 _ _); reflexivity.
  - apply (proj2 (proj2 (startRoute_handshake Samples.nextToken Samples.v2Address
                           Samples.verifyK1 None None
                           (Samples.startWith (<["privatekey" := Js.Str "guess"]> ∅))
                           Utils.freshResponse 1000 Samples.server))
             Samples.k1); reflexivity.
Defined.

(** ** Text helpers *)

Section FormattingFacts.
Import Formatting.

Context (numberToString : Z → string) (maxStringLength : Z).

Local Abbreviation padDigits := (padDigits numberToString maxStringLength).

(** The loop, started at the [j]-th threshold with the earlier ones
    already passed and enough iterations left, ends on the threshold that
    catches [input], or on the fall-through ['e']. *)
Lemma hexToBase36_from_threshold (fuel : nat) (j input : Z) :
  0 ≤ j →
  36 ≤ j + Z.of_nat fuel →
  7 * j ≤ input ∨ j = 0 →
  hexToBase36_from fuel (6 + 7 * j) input =
    Some (if 251 <? input then "e"
          else fromCharCode (if Z.max 0 (input / 7) <=? 9
                             then 48 + Z.max 0 (input / 7)
                             else 87 + Z.max 0 (input / 7))).
Proof.
  revert j. induction fuel as [|fuel IH]; intros j Hj Hfuel Hpast.
  - (* no iteration left: the counter is already past 251 *)
    cbn. destruct (Z.leb_spec (6 + 7 * j) 251); [lia|].
    destruct (Z.ltb_spec 251 input); [done|lia].
  - cbn [hexToBase36_from].
    destruct (Z.leb_spec (6 + 7 * j) 251) as [Hin|Hout].
    + destruct (Z.leb_spec input (6 + 7 * j)) as [Hcaught|Hmissed].
      * assert (Z.max 0 (input / 7) = j) as Hk.
        { destruct Hpast as [Hpast| ->].
          - assert (input / 7 = j)
              by (symmetry; apply Z.div_unique_pos with (input - 7 * j); lia).
            lia.
          - assert (input / 7 ≤ 0)
              by (apply Z.lt_succ_r, Z.div_lt_upper_bound; lia).
            lia. }
        destruct (Z.ltb_spec 251 input); [lia|]. rewrite Hk.
        replace ((6 + 7 * j - 6) / 7) with j
          by (apply Z.div_unique_pos with 0; lia).
        destruct (Z.leb_spec (6 + 7 * j) 69), (Z.leb_spec j 9); try lia; [done|].
        replace ((6 + 7 * j - 76) / 7) with (j - 10)
          by (apply Z.div_unique_pos with 0; lia).
        do 2 f_equal. lia.
      * replace (6 + 7 * j + 7) with (6 + 7 * (j + 1)) by lia.
        apply IH; lia.
    + destruct (Z.ltb_spec 251 input); [done|].
      destruct Hpast; lia.
Qed.

(** The 36 iterations the model allows are all the loop can make: more
    fuel changes nothing. *)
Lemma hexToBase36_fuel (fuel : nat) (input : Z) :
  (36 ≤ fuel)%nat →
  hexToBase36_from fuel 6 input = hexToBase36 input.
Proof.
  intros Hfuel. unfold hexToBase36.
  change 6 with (6 + 7 * 0).
  rewrite !hexToBase36_from_threshold by lia. done.
Qed.

(** X1: on 0..251, [hexToBase36] returns the base-36 digit of
    [floor(input / 7)]: '0'..'9' for quotients up to 9, 'a'..'z' above. *)
Theorem hexToBase36_digit (input : Z) :
  0 ≤ input ≤ 251 →
  hexToBase36 input =
    Some (fromCharCode (if input / 7 <=? 9 then 48 + input / 7 else 87 + input / 7)).
Proof.
  intros Hin. unfold hexToBase36. change 6 with (6 + 7 * 0).
  rewrite hexToBase36_from_threshold by lia.
  destruct (Z.ltb_spec 251 input); [lia|].
  assert (0 ≤ input / 7) by (apply Z.div_pos; lia).
  by rewrite Z.max_r.
Qed.

Lemma hexToBase36_digit_witness :
  hexToBase36 100 = Some "e".
Proof. apply (hexToBase36_digit 100). lia. Defined.

(** X2: outside that range the answer is fixed: '0' for every input up to
    6, negative ones included, and 'e' for every input above 251. *)
Theorem hexToBase36_out_of_range (input : Z) :
  (input ≤ 6 → hexToBase36 input = Some "0") ∧
  (251 < input → hexToBase36 input = Some "e").
Proof.
  unfold hexToBase36. change 6 with (6 + 7 * 0).
  rewrite hexToBase36_from_threshold by lia.
  split; intros Hin.
  - destruct (Z.ltb_spec 251 input); [lia|].
    assert (input / 7 ≤ 0) by (apply Z.lt_succ_r, Z.div_lt_upper_bound; lia).
    by rewrite Z.max_l.
  - by destruct (Z.ltb_spec 251 input); [|lia].
Qed.

Lemma hexToBase36_out_of_range_witness :
  hexToBase36 (-3) = Some "0" ∧ hexToBase36 255 = Some "e".
Proof.
  split.
  - apply (proj1 (hexToBase36_out_of_range (-3))). lia.
  - apply (proj2 (hexToBase36_out_of_range 255)). lia.
Defined.

(** X3: for every integer, [hexToBase36] returns, and what it returns is
    one character among '0'..'9' and 'a'..'z'. *)
Theorem hexToBase36_alphabet (input : Z) :
  ∃ c, hexToBase36 input = Some (String c EmptyString) ∧
       ((48 ≤ nat_of_ascii c ≤ 57)%nat ∨ (97 ≤ nat_of_ascii c ≤ 122)%nat).
Proof.
  unfold hexToBase36. change 6 with (6 + 7 * 0).
  rewrite hexToBase36_from_threshold by lia.
  destruct (Z.ltb_spec 251 input) as [Hbig|Hsmall].
  - exists "e"%char. split; [done|]. right.
    assert (nat_of_ascii "e" = 101%nat) as -> by reflexivity. lia.
  - set (k := Z.max 0 (input / 7)).
    assert (0 ≤ k ≤ 35) as Hk.
    { unfold k. split; [lia|].
      assert (input / 7 < 36) by (apply Z.div_lt_upper_bound; lia). lia. }
    unfold fromCharCode. eexists. split; [reflexivity|].
    destruct (Z.leb_spec k 9).
    + left. rewrite nat_ascii_embedding by lia. lia.
    + right. rewrite nat_ascii_embedding by lia. lia.
Qed.

Lemma length_append (s1 s2 : string) :
  String.length (s1 +:+ s2) = (String.length s1 + String.length s2)%nat.
Proof. induction s1 as [|c s1 IH]; simpl; [done|]. by f_equal. Qed.

Lemma length_zeros (n : nat) : String.length (zeros n) = n.
Proof. induction n as [|n IH]; simpl; [done|]. by f_equal. Qed.

(** Joining [n] empty slots with "0" leaves [n - 1] zeros. *)
Lemma arrayJoin_zeros (n : nat) : arrayJoin n "0" = zeros (n - 1).
Proof.
  unfold arrayJoin. destruct n as [|n]; [done|].
  replace (S n - 1)%nat with n by lia.
  induction n as [|n IH]; [done|].
  change (replicate (S (S n)) EmptyString)
    with (EmptyString :: replicate (S n) EmptyString).
  cbn [String.concat]. cbn [replicate] in *. rewrite IH. done.
Qed.

(** The two tests of [padDigits]. *)
Ltac case_array_length :=
  match goal with |- context [?a <=? ?b] => destruct (Z.leb_spec a b) end.
Ltac case_string_length :=
  match goal with |- context [?a <? ?b] => destruct (Z.ltb_spec a b) end.

(** X4: [padDigits] puts [digits - length] zeros in front of
    [String(number)], none when that is already [digits] long or longer,
    and never cuts anything off; this when the array of the padding can be
    made, which takes a length below [2 ^ 32], and the engine can hold the
    result.  Otherwise it throws a RangeError. *)
Theorem padDigits_zeros (number digits : Z) :
  (digits - Z.of_nat (String.length (numberToString number)) + 1 < 4294967296 →
   Z.max digits (Z.of_nat (String.length (numberToString number))) ≤ maxStringLength →
   padDigits number digits =
     Js.Normal
       (zeros (Z.to_nat (digits - Z.of_nat (String.length (numberToString number))))
        +:+ numberToString number)) ∧
  (4294967296 ≤ digits - Z.of_nat (String.length (numberToString number)) + 1
   ∨ maxStringLength < Z.max digits (Z.of_nat (String.length (numberToString number))) →
   ∃ reason, padDigits number digits = Js.Throw (Errors.RangeError reason)).
Proof.
  unfold Formatting.padDigits.
  rewrite arrayJoin_zeros, length_append, length_zeros.
  split.
  - intros Harray Hholds.
    case_array_length; [lia|].
    case_string_length; [lia|].
    f_equal.
    replace (Z.to_nat
               (Z.max (digits - Z.of_nat (String.length (numberToString number)) + 1) 0)
             - 1)%nat
      with (Z.to_nat (digits - Z.of_nat (String.length (numberToString number))))
      by lia.
    reflexivity.
  - intros Hover.
    case_array_length; [by eexists|].
    case_string_length; [by eexists|lia].
Qed.

(** X5: whenever the array of the padding can be made and the engine can
    hold the result, [padDigits] returns a string as long as the longer of
    [digits] and [String(number)]. *)
Theorem padDigits_length (number digits : Z) :
  digits - Z.of_nat (String.length (numberToString number)) + 1 < 4294967296 →
  Z.max digits (Z.of_nat (String.length (numberToString number))) ≤ maxStringLength →
  ∃ padded,
    padDigits number digits = Js.Normal padded ∧
    Z.of_nat (String.length padded) =
      Z.max digits (Z.of_nat (String.length (numberToString number))).
Proof.
  intros Harray Hholds. unfold Formatting.padDigits.
  destruct (Z.leb_spec 4294967296
              (Z.max (digits - Z.of_nat (String.length (numberToString number)) + 1) 0));
    [lia|].
  rewrite arrayJoin_zeros.
  assert (Z.of_nat (String.length
            (zeros (Z.to_nat
                      (Z.max (digits - Z.of_nat (String.length (numberToString number)) + 1)
                         0) - 1)
             +:+ numberToString number))
          = Z.max digits (Z.of_nat (String.length (numberToString number)))) as Hlong
    by (rewrite length_append, length_zeros; lia).
  rewrite Hlong.
  destruct (Z.ltb_spec maxStringLength
              (Z.max digits (Z.of_nat (String.length (numberToString number)))));
    [lia|].
  eexists. split; [reflexivity|exact Hlong].
Qed.

(** X6: for a negative number the zeros go in front of the minus sign.
    Stated for the safe integers, whose [String(number)] is their decimal
    notation. *)
Theorem padDigits_negative (number digits : Z) :
  (∀ n, - 9007199254740992 < n < 9007199254740992 → numberToString n = pretty n) →
  - 9007199254740992 < number < 0 →
  digits - Z.of_nat (String.length (pretty number)) + 1 < 4294967296 →
  Z.max digits (Z.of_nat (String.length (pretty number))) ≤ maxStringLength →
  padDigits number digits =
    Js.Normal
      (zeros (Z.to_nat (digits - Z.of_nat (String.length (pretty number))))
       +:+ "-" +:+ pretty (- number)).
Proof.
  intros Hdecimal Hneg Harray Hholds. unfold Formatting.padDigits.
  rewrite (Hdecimal number) by lia.
  rewrite arrayJoin_zeros, length_append, length_zeros.
  case_array_length; [lia|].
  case_string_length; [lia|].
  f_equal.
  replace (Z.to_nat (Z.max (digits - Z.of_nat (String.length (pretty number)) + 1) 0)
           - 1)%nat
    with (Z.to_nat (digits - Z.of_nat (String.length (pretty number)))) by lia.
  f_equal. destruct number as [|p|p]; [lia|lia|]. reflexivity.
Qed.

End FormattingFacts.

Lemma padDigits_zeros_witness :
  Formatting.padDigits Samples.decimal 536870888 42 5 = Js.Normal "00042" ∧
  Formatting.padDigits Samples.decimal 536870888 123456 5 = Js.Normal "123456" ∧
  (∃ reason,
     Formatting.padDigits Samples.decimal 536870888 42 4294967297
     = Js.Throw (Errors.RangeError reason)) ∧
  (∃ reason,
     Formatting.padDigits Samples.decimal 536870888 42 536870889
     = Js.Throw (Errors.RangeError reason)).
Proof.
  split; [|split; [|split]].
  - apply (proj1 (padDigits_zeros Samples.decimal 536870888 42 5)).
    + vm_compute. reflexivity.
    + vm_compute. discriminate.
  - apply (proj1 (padDigits_zeros Samples.decimal 536870888 123456 5)).
    + vm_compute. reflexivity.
    + vm_compute. discriminate.
  - apply (proj2 (padDigits_zeros Samples.decimal 536870888 42 4294967297)).
    left. vm_compute. discriminate.
  - apply (proj2 (padDigits_zeros Samples.decimal 536870888 42 536870889)).
    right. vm_compute. reflexivity.
Defined.

Lemma padDigits_length_witness :
  ∃ padded,
    Formatting.padDigits Samples.decimal 536870888 42 5 = Js.Normal padded ∧
    Z.of_nat (String.length padded) = Z.max 5 (Z.of_nat (String.length (Samples.decimal 42))).
Proof.
  apply (padDigits_length Samples.decimal 536870888 42 5).
  - vm_compute. reflexivity.
  - vm_compute. discriminate.
Defined.

Lemma padDigits_negative_witness :
  Formatting.padDigits Samples.decimal 536870888 (-5) 4 = Js.Normal "00-5".
Proof.
  apply (padDigits_negative Samples.decimal 536870888 (-5) 4).
  - intros n Hsafe. reflexivity.
  - lia.
  - vm_compute. reflexivity.
  - vm_compute. discriminate.
Defined.

(** ** Limits of listings *)

Section PagingFacts.
Import Js Paging Listings.

Context (parseInt : Js.value → num).

Lemma sanitiseLimit_bound (limit : Js.value) (def max : option Z) (n : Z) :
  defined limit = true →
  sanitiseLimit parseInt limit def max = Int n →
  n ≤ orNumber max 1000.
Proof.
  intros Hdef. unfold sanitiseLimit. rewrite Hdef.
  destruct (parseInt limit) as [|[|p|p]]; cbn; intros [= <-]; lia.
Qed.

(** X7: whenever a limit is supplied, what [sanitiseLimit] returns is
    [NaN] or a number that does not exceed [max] (1000 when no maximum is
    passed). *)
Theorem sanitiseLimit_capped (limit : Js.value) (def max : option Z) (n : Z) :
  defined limit = true →
  sanitiseLimit parseInt limit def max = Int n →
  n ≤ orNumber max 1000.
Proof.
  intros Hdef. unfold sanitiseLimit. rewrite Hdef.
  destruct (parseInt limit) as [|parsed]; [done|].
  destruct (Z.eq_dec parsed 0) as [->|Hnz]; cbn.
  - intros [= <-]. lia.
  - destruct parsed; [done| |]; intros [= <-]; lia.
Qed.

(** X8: a supplied limit that parses to 0 is replaced by the default
    (50 when none is passed), itself capped by the maximum; any other
    integer up to the maximum is returned as it is, negative ones
    included. *)
Theorem sanitiseLimit_zero_and_others (limit : Js.value) (def max : option Z) (n : Z) :
  defined limit = true →
  parseInt limit = Int n →
  (n = 0 →
   sanitiseLimit parseInt limit def max
     = Int (Z.min (orNumber def 50) (orNumber max 1000))) ∧
  (n ≠ 0 → n ≤ orNumber max 1000 →
   sanitiseLimit parseInt limit def max = Int n).
Proof.
  intros Hdef Hn. unfold sanitiseLimit. rewrite Hdef, Hn. split.
  - intros ->. reflexivity.
  - intros Hnz Hle. destruct n; [done| |]; cbn; f_equal; lia.
Qed.

(** X9: an [undefined] limit gets the default; a supplied limit that does
    not parse ([null], an empty or non-numeric string) comes back as
    [NaN]. *)
Theorem sanitiseLimit_unparsed (limit : Js.value) (def max : option Z) :
  (limit = Undefined → sanitiseLimit parseInt limit def max = Int (orNumber def 50)) ∧
  (defined limit = true → parseInt limit = NaN →
   sanitiseLimit parseInt limit def max = NaN).
Proof.
  split.
  - intros ->. reflexivity.
  - intros Hdef Hnan. unfold sanitiseLimit. by rewrite Hdef, Hnan.
Qed.

(** The limit of a listing that passes at most a default of 100 and no
    maximum of its own. *)
Lemma sanitiseLimit_listing (limit : Js.value) (def : option Z) (n : Z) :
  orNumber def 50 ≤ 1000 →
  sanitiseLimit parseInt limit def None = Int n →
  n ≤ 1000.
Proof.
  intros Hd. destruct (defined limit) eqn:E.
  - apply (sanitiseLimit_bound limit def None n E).
  - unfold sanitiseLimit. rewrite E. intros [= <-]. done.
Qed.

(** X10: none of the listings of transactions.js and names.js asks for
    more than 1000 rows: the limit of its query is [NaN] or at most 1000,
    whatever limit, offset and other arguments it is called with. *)
Theorem listings_ask_at_most_1000 (address : string) (addressList : option (list string))
    (limit offset asc orderBy order : Js.value) (q : FindOptions) (n : Z) :
  q ∈ [ getTransactions parseInt limit offset asc;
        getRecentTransactions parseInt limit offset;
        getTransactionsByAddress parseInt address limit offset;
        getNames parseInt limit offset;
        getNamesByAddress parseInt address limit offset;
        lookupNames parseInt addressList limit offset orderBy order;
        getUnpaidNames parseInt limit offset ] →
  Listings.limit q = Int n →
  n ≤ 1000.
Proof.
  intros Hq.
  repeat (apply elem_of_cons in Hq as [->|Hq];
          [cbn; apply sanitiseLimit_listing; cbn; lia|]).
  by apply elem_of_nil in Hq.
Qed.

(** Without a limit, the listing of recent transactions asks for 100 rows
    and every other listing for 50. *)
Lemma listings_default_limit (address : string) (addressList : option (list string))
    (offset asc orderBy order : Js.value) :
  Listings.limit (getRecentTransactions parseInt Undefined offset) = Int 100 ∧
  Forall (λ q, Listings.limit q = Int 50)
    [ getTransactions parseInt Undefined offset asc;
      getTransactionsByAddress parseInt address Undefined offset;
      getNames parseInt Undefined offset;
      getNamesByAddress parseInt address Undefined offset;
      lookupNames parseInt addressList Undefined offset orderBy order;
      getUnpaidNames parseInt Undefined offset ].
Proof. split; [reflexivity|]. repeat constructor. Qed.

End PagingFacts.

Lemma sanitiseLimit_capped_witness :
  Paging.sanitiseLimit Samples.parseIntOfNumber (Js.Num 5000) None None
    = Paging.Int 1000 ∧ 1000 ≤ Paging.orNumber None 1000.
Proof.
  split; [reflexivity|].
  apply (sanitiseLimit_capped Samples.parseIntOfNumber (Js.Num 5000) None None 1000);
    reflexivity.
Defined.

Lemma sanitiseLimit_zero_and_others_witness :
  Paging.sanitiseLimit Samples.parseIntOfNumber (Js.Num 0) (Some 100) None
    = Paging.Int 100 ∧
  Paging.sanitiseLimit Samples.parseIntOfNumber (Js.Num (-7)) None None
    = Paging.Int (-7).
Proof.
  split.
  - apply (proj1 (sanitiseLimit_zero_and_others Samples.parseIntOfNumber (Js.Num 0)
                    (Some 100) None 0 eq_refl eq_refl)).
    reflexivity.
  - apply (proj2 (sanitiseLimit_zero_and_others Samples.parseIntOfNumber (Js.Num (-7))
                    None None (-7) eq_refl eq_refl)).
    + discriminate.
    + cbn. lia.
Defined.

Lemma sanitiseLimit_unparsed_witness :
  Paging.sanitiseLimit Samples.parseIntOfNumber Js.Undefined None None = Paging.Int 50 ∧
  Paging.sanitiseLimit Samples.parseIntOfNumber Js.Null None None = Paging.NaN.
Proof.
  split.
  - apply (proj1 (sanitiseLimit_unparsed Samples.parseIntOfNumber Js.Undefined None None)).
    reflexivity.
  - apply (proj2 (sanitiseLimit_unparsed Samples.parseIntOfNumber Js.Null None None));
      reflexivity.
Defined.

Lemma listings_ask_at_most_1000_witness :
  Listings.limit
    (Listings.getRecentTransactions Samples.parseIntOfNumber (Js.Num 5) Js.Undefined)
  = Paging.Int 5 ∧ 5 ≤ 1000.
Proof.
  split; [reflexivity|].
  apply (listings_ask_at_most_1000 Samples.parseIntOfNumber "k1" None
           (Js.Num 5) Js.Undefined Js.Undefined Js.Undefined Js.Undefined
           (Listings.getRecentTransactions Samples.parseIntOfNumber (Js.Num 5) Js.Undefined)
           5).
  - apply elem_of_cons. right. apply elem_of_cons. left. reflexivity.
  - reflexivity.
Defined.

(** ** The ledger as a whole *)

Section SupplyFacts.
Import Js Errors Schemas Transactions Supply.

Context (toLowerCase : string → string).

Local Abbreviation pushTransaction := (Transactions.pushTransaction toLowerCase).

Lemma totalBalance_insert (tbl : gmap string Address) (key : string) (row : Address) :
  tbl !! key = None →
  totalBalance (<[key := row]> tbl) = balance row + totalBalance tbl.
Proof.
  intros Hfree. unfold totalBalance.
  rewrite map_fold_insert_L; [done| |done]. intros. lia.
Qed.

Lemma totalBalance_update_row (f : Address → Address) (tbl : gmap string Address)
    (key : string) (row : Address) :
  tbl !! key = Some row →
  totalBalance (update_row f key tbl)
  = totalBalance tbl - balance row + balance (f row).
Proof.
  intros Hrow. unfold update_row.
  assert (alter f key tbl = <[key := f row]> (delete key tbl)) as ->.
  { apply map_eq. intros k. destruct (decide (key = k)) as [<-|Hne].
    - by rewrite lookup_alter_eq, lookup_insert_eq, Hrow.
    - by rewrite lookup_alter_ne, lookup_insert_ne, lookup_delete_ne. }
  rewrite totalBalance_insert by apply lookup_delete_eq.
  unfold totalBalance at 2.
  rewrite (map_fold_delete_L _ _ key row tbl); [|intros; lia|done].
  fold (totalBalance (delete key tbl)). lia.
Qed.

(** The sender's two updates take the amount out of the ledger. *)
Lemma totalBalance_debited (sender : Address) (amount : Z) (tbl : gmap string Address)
    (row : Address) :
  tbl !! address sender = Some row →
  totalBalance (debited sender amount tbl) = totalBalance tbl - amount.
Proof.
  intros Hrow. unfold debited.
  rewrite (totalBalance_update_row _ _ _ (add_balance (- amount) row))
    by (unfold update_row; by rewrite lookup_alter_eq, Hrow).
  rewrite (totalBalance_update_row _ _ _ row) by done.
  cbn. lia.
Qed.

(** X11: a transfer that resolves neither creates nor destroys money:
    whatever the amount, and whether the recipient is another account, a
    new one or the sender itself, the sum of all balances is what it was.
    The sender must be a stored account. *)
Theorem pushTransaction_keeps_supply (w : World) (sender : Address)
    (recipientAddress : string) (amount : Z) (metadata : Js.value) (now : Z)
    (transaction : Transaction) :
  keyed (addresses w) →
  is_Some (addresses w !! address sender) →
  (pushTransaction sender recipientAddress amount metadata now w).1
    = Normal transaction →
  totalBalance (addresses (pushTransaction sender recipientAddress amount metadata now w).2)
  = totalBalance (addresses w).
Proof.
  intros Hkey [row Hrow]. rewrite pushTransaction_unfold.
  pose proof (totalBalance_debited sender amount (addresses w) row Hrow) as Hd.
  destruct (addresses w !! recipientAddress) as [recipient|] eqn:Hr; cbn.
  - intros _. rewrite (Hkey _ _ Hr).
    destruct (debited sender amount (addresses w) !! recipientAddress) as [held|] eqn:Hheld.
    + rewrite (totalBalance_update_row _ _ _ held) by done. cbn. lia.
    + rewrite debited_lookup, Hr in Hheld. by destruct (decide _).
  - unfold address_create. cbn [address].
    destruct (debited sender amount (addresses w) !! toLowerCase recipientAddress)
      eqn:Hfree; cbn; [done|].
    intros _. rewrite totalBalance_insert by done. cbn. lia.
Qed.

Lemma keyed_update_row (f : Address → Address) (key : string)
    (tbl : gmap string Address) :
  (∀ row, address (f row) = address row) →
  keyed tbl → keyed (update_row f key tbl).
Proof.
  intros Hf Hkey k row. unfold update_row.
  destruct (decide (key = k)) as [<-|Hne].
  - rewrite lookup_alter_eq. destruct (tbl !! key) as [old|] eqn:E; [|done].
    intros [= <-]. rewrite Hf. by apply (Hkey key).
  - rewrite lookup_alter_ne by done. apply Hkey.
Qed.

Lemma pushTransaction_keyed (w : World) (sender : Address)
    (recipientAddress : string) (amount : Z) (metadata : Js.value) (now : Z) :
  keyed (addresses w) →
  keyed (addresses (pushTransaction sender recipientAddress amount metadata now w).2).
Proof.
  intros Hkey. rewrite pushTransaction_unfold.
  assert (keyed (debited sender amount (addresses w))) as Hd.
  { unfold debited. by do 2 (apply keyed_update_row; [done|]). }
  destruct (addresses w !! recipientAddress) as [recipient|]; cbn.
  - by apply keyed_update_row.
  - unfold address_create. cbn [address].
    destruct (debited sender amount (addresses w) !! toLowerCase recipientAddress);
      cbn; [done|].
    by apply map_Forall_insert_2.
Qed.

(** X13: no transfer removes an account or changes the [totalin], the
    [firstseen] or the address of an account that is already stored: only
    its [balance] and [totalout] can move. *)
Theorem pushTransaction_never_touches_totalin (w : World) (sender : Address)
    (recipientAddress : string) (amount : Z) (metadata : Js.value) (now : Z)
    (key : string) (row : Address) :
  addresses w !! key = Some row →
  ∃ row',
    addresses (pushTransaction sender recipientAddress amount metadata now w).2 !! key
      = Some row' ∧
    totalin row' = totalin row ∧
    firstseen row' = firstseen row ∧
    address row' = address row.
Proof.
  intros Hrow. rewrite pushTransaction_unfold.
  assert (∃ row', debited sender amount (addresses w) !! key = Some row' ∧
                  totalin row' = totalin row ∧ firstseen row' = firstseen row ∧
                  address row' = address row) as (mid & Hmid & Hin & Hseen & Haddr).
  { rewrite debited_lookup, Hrow. destruct (decide _); eexists; by split. }
  destruct (addresses w !! recipientAddress) as [recipient|]; cbn.
  - unfold update_row at 1.
    destruct (decide (address recipient = key)) as [<-|Hne].
    + rewrite lookup_alter_eq, Hmid. cbn. eexists. by split.
    + rewrite lookup_alter_ne by done. eexists. by split.
  - unfold address_create. cbn [address].
    destruct (debited sender amount (addresses w) !! toLowerCase recipientAddress)
      eqn:Hfree; cbn.
    + eexists. by split.
    + rewrite lookup_insert_ne by congruence. eexists. by split.
Qed.

(** X14: a transfer to an address without an account records the
    transaction with the recipient address as it was given, while the
    account it creates is stored under what [toLowerCase] makes of that
    address: whenever lower-casing changes the address, no account is
    stored under the spelling the transaction records. *)
Theorem pushTransaction_new_account_spelling (w : World) (sender : Address)
    (recipientAddress : string) (amount : Z) (metadata : Js.value) (now : Z) :
  addresses w !! recipientAddress = None →
  addresses w !! toLowerCase recipientAddress = None →
  ∃ transaction account,
    (pushTransaction sender recipientAddress amount metadata now w).1
      = Normal transaction ∧
    to transaction = recipientAddress ∧
    addresses (pushTransaction sender recipientAddress amount metadata now w).2
      !! toLowerCase recipientAddress = Some account ∧
    address account = toLowerCase recipientAddress ∧
    (recipientAddress ≠ toLowerCase recipientAddress →
     addresses (pushTransaction sender recipientAddress amount metadata now w).2
       !! recipientAddress = None).
Proof.
  intros Hr Hl. rewrite pushTransaction_new by done. cbn.
  eexists _, _. split; [done|]. split; [done|].
  rewrite lookup_insert_eq. split; [done|]. split; [done|].
  intros Hne. rewrite lookup_insert_ne by done.
  rewrite debited_lookup, Hr. by destruct (decide _).
Qed.

(** X15: there and back: a transfer of v from A to B followed by a
    transfer of v from B to A (called with the row of B as the first
    transfer left it), for distinct stored accounts, leaves both balances
    where they started (any amount, nothing checked on the way). *)
Theorem pushTransaction_there_and_back (w : World) (A B : Address) (v : Z)
    (metadata : Js.value) (now later : Z) :
  keyed (addresses w) →
  addresses w !! address A = Some A →
  addresses w !! address B = Some B →
  address A ≠ address B →
  balanceOf (address A)
    (pushTransaction (add_totalout v (add_balance v B)) (address A) v metadata later
       (pushTransaction A (address B) v metadata now w).2).2
  = balanceOf (address A) w ∧
  balanceOf (address B)
    (pushTransaction (add_totalout v (add_balance v B)) (address A) v metadata later
       (pushTransaction A (address B) v metadata now w).2).2
  = balanceOf (address B) w.
Proof.
  intros Hkey HA HB Hne.
  pose proof (pushTransaction_sender_row toLowerCase w A (address B) v metadata now HA
                (not_eq_sym Hne) Hkey) as HA1.
  pose proof (pushTransaction_recipient_row toLowerCase w A B v metadata now HB
                (not_eq_sym Hne)) as HB1.
  pose proof (pushTransaction_keyed w A (address B) v metadata now Hkey) as Hkey1.
  set (w1 := (pushTransaction A (address B) v metadata now w).2) in *.
  set (A1 := add_totalout v (add_balance (- v) A)) in *.
  set (B1 := add_totalout v (add_balance v B)) in *.
  unfold balanceOf. split.
  - change (address A) with (address A1) at 1 2.
    rewrite (pushTransaction_recipient_row toLowerCase w1 B1 A1 v metadata later) by done.
    rewrite HA. cbn. lia.
  - change (address B) with (address B1) at 1.
    rewrite (pushTransaction_sender_row toLowerCase w1 B1 (address A) v metadata later) by done.
    rewrite HB. cbn. lia.
Qed.

End SupplyFacts.

Section SupplyRuns.
Import Js Errors Schemas Transactions Supply.

Local Abbreviation pushTransaction :=
  (Transactions.pushTransaction Samples.toLowerCaseASCII).

Lemma pushTransaction_keeps_supply_witness :
  Supply.totalBalance
    (addresses (pushTransaction Samples.k1 "k2" 25 Null 1000 Samples.ledger).2)
  = Supply.totalBalance (addresses Samples.ledger).
Proof.
  apply (pushTransaction_keeps_supply Samples.toLowerCaseASCII Samples.ledger Samples.k1 "k2" 25 Null 1000
           {| id := 1; to := "k2"; from := "k1"; value := 25;
              name := Null; time := 1000; op := Null |}).
  - exact keyed_ledger.
  - exists Samples.k1. reflexivity.
  - reflexivity.
Defined.

Lemma pushTransaction_never_touches_totalin_witness :
  ∃ row',
    addresses (pushTransaction Samples.k1 "k2" 5 Null 1000 Samples.ledger).2 !! "k2"
      = Some row' ∧
    totalin row' = 3 ∧ firstseen row' = 0 ∧ address row' = "k2".
Proof.
  apply (pushTransaction_never_touches_totalin Samples.toLowerCaseASCII Samples.ledger Samples.k1 "k2" 5 Null
           1000 "k2" Samples.k2).
  reflexivity.
Defined.

Lemma pushTransaction_new_account_spelling_witness :
  ∃ transaction account,
    (pushTransaction Samples.k1 "K9" 4 Null 1000 Samples.ledger).1 = Normal transaction ∧
    to transaction = "K9" ∧
    addresses (pushTransaction Samples.k1 "K9" 4 Null 1000 Samples.ledger).2 !! "k9"
      = Some account ∧
    address account = "k9" ∧
    ("K9" ≠ "k9" →
     addresses (pushTransaction Samples.k1 "K9" 4 Null 1000 Samples.ledger).2 !! "K9"
       = None).
Proof.
  apply (pushTransaction_new_account_spelling Samples.toLowerCaseASCII Samples.ledger Samples.k1 "K9" 4 Null 1000);
    reflexivity.
Defined.

Lemma pushTransaction_there_and_back_witness :
  balanceOf "k1"
    (pushTransaction (add_totalout 4 (add_balance 4 Samples.k2)) "k1" 4 Null 1001
       (pushTransaction Samples.k1 "k2" 4 Null 1000 Samples.ledger).2).2
  = balanceOf "k1" Samples.ledger ∧
  balanceOf "k2"
    (pushTransaction (add_totalout 4 (add_balance 4 Samples.k2)) "k1" 4 Null 1001
       (pushTransaction Samples.k1 "k2" 4 Null 1000 Samples.ledger).2).2
  = balanceOf "k2" Samples.ledger.
Proof.
  apply (pushTransaction_there_and_back Samples.toLowerCaseASCII Samples.ledger Samples.k1 Samples.k2 4 Null
           1000 1001).
  - exact keyed_ledger.
  - reflexivity.
  - reflexivity.
  - discriminate.
Defined.

End SupplyRuns.

(** ** Serialisation *)

Section SerialisationFacts.
Import Js Errors Utils Schemas Transactions.

Local Abbreviation pushTransaction :=
  (Transactions.pushTransaction Samples.toLowerCaseASCII).

(** X16: the body of a recognised error without message, whose [info] is
    an object.  When [info] has no own property called [hasOwnProperty],
    every own property of [info] other than [__proto__] appears with its
    value, also under the names [ok] and [error], which it then
    overwrites; [ok: false] and [error: errorString] fill in where [info]
    has no such property, and nothing else is there (no own [__proto__]
    either).  When [info] has an own property called [hasOwnProperty], no
    body is built: a TypeError is thrown. *)
Theorem errorToJSON_info_wins (e : KristError) (fields : gmap string Js.value)
    (log : list Js.value) :
  truthy (message e) = false →
  info e = Obj fields →
  (fields !! "hasOwnProperty" = None →
   ∃ out,
     errorToJSON (Krist e) log = (Normal (Obj out), log) ∧
     ∀ key,
       out !! key =
         if decide (key = "__proto__") then None
         else
           match fields !! key with
           | Some v => Some v
           | None =>
               if decide (key = "ok") then Some (Bool false)
               else if decide (key = "error") then Some (Str (errorString e))
               else None
           end) ∧
  (is_Some (fields !! "hasOwnProperty") →
   ∃ reason, errorToJSON (Krist e) log = (Throw (TypeError reason), log)).
Proof.
  intros Hm Hi. split.
  - intros Hown. eexists. split; [by apply errorToJSON_recognised|].
    intros key. rewrite lookup_union.
    destruct (decide (key = "__proto__")) as [->|Hproto].
    + by rewrite lookup_delete_eq.
    + rewrite lookup_delete_ne by done.
      destruct (fields !! key) as [v|]; cbn.
      * by destruct (_ !! key).
      * rewrite (left_id_L None _).
        destruct (decide (key = "ok")) as [->|Hok]; [done|].
        destruct (decide (key = "error")) as [->|Herr]; [done|].
        by rewrite !lookup_insert_ne.
  - intros [v Hown]. eexists. unfold errorToJSON. rewrite Hm, Hi. cbn.
    by rewrite Hown.
Qed.

Lemma errorToJSON_info_wins_witness :
  (∃ out,
     errorToJSON
       (Krist {| message := Undefined; errorString := "name_taken"; statusCode := 409;
                 info := Obj (<["ok" := Bool true]> (<["__proto__" := Null]> ∅)) |}) []
     = (Normal (Obj out), []) ∧
     out !! "ok" = Some (Bool true) ∧
     out !! "error" = Some (Str "name_taken") ∧
     out !! "__proto__" = None) ∧
  (∃ reason,
     errorToJSON
       (Krist {| message := Undefined; errorString := "name_taken"; statusCode := 409;
                 info := Obj (<["hasOwnProperty" := Bool true]> ∅) |}) []
     = (Throw (TypeError reason), [])).
Proof.
  split.
  - destruct (errorToJSON_info_wins
                {| message := Undefined; errorString := "name_taken"; statusCode := 409;
                   info := Obj (<["ok" := Bool true]> (<["__proto__" := Null]> ∅)) |}
                (<["ok" := Bool true]> (<["__proto__" := Null]> ∅)) [])
      as [Hcopies _]; [reflexivity|reflexivity|].
    destruct Hcopies as (out & Hrun & Hout); [reflexivity|].
    exists out. split; [exact Hrun|]. rewrite !Hout. repeat split.
  - apply (proj2 (errorToJSON_info_wins
                {| message := Undefined; errorString := "name_taken"; statusCode := 409;
                   info := Obj (<["hasOwnProperty" := Bool true]> ∅) |}
                (<["hasOwnProperty" := Bool true]> ∅) [] eq_refl eq_refl)).
    by eexists.
Defined.

(** X17: [transactionToJSON] loses nothing: two rows with the same JSON
    are the same row ([op] travels under the name [metadata]). *)
Theorem transactionToJSON_inj (t1 t2 : Transaction) :
  transactionToJSON t1 = transactionToJSON t2 → t1 = t2.
Proof.
  destruct t1 as [id1 to1 from1 value1 name1 time1 op1],
           t2 as [id2 to2 from2 value2 name2 time2 op2].
  unfold transactionToJSON. cbn. intros Heq.
  pose proof (f_equal (λ v, match v with Obj m => m !! "id" | _ => None end) Heq) as Hid.
  pose proof (f_equal (λ v, match v with Obj m => m !! "from" | _ => None end) Heq) as Hfrom.
  pose proof (f_equal (λ v, match v with Obj m => m !! "to" | _ => None end) Heq) as Hto.
  pose proof (f_equal (λ v, match v with Obj m => m !! "value" | _ => None end) Heq) as Hvalue.
  pose proof (f_equal (λ v, match v with Obj m => m !! "time" | _ => None end) Heq) as Htime.
  pose proof (f_equal (λ v, match v with Obj m => m !! "name" | _ => None end) Heq) as Hname.
  pose proof (f_equal (λ v, match v with Obj m => m !! "metadata" | _ => None end) Heq) as Hop.
  clear Heq.
  vm_compute in Hid, Hfrom, Hto, Hvalue, Htime, Hname, Hop.
  congruence.
Qed.

Lemma transactionToJSON_inj_witness :
  (pushTransaction Samples.k1 "k2" 5 Null 1000 Samples.ledger).1
  = Normal {| id := 1; to := "k2"; from := "k1"; value := 5;
              name := Null; time := 1000; op := Null |} ∧
  transferRow Samples.ledger Samples.k1 "k2" 5 Null 1000
  = {| id := 1; to := "k2"; from := "k1"; value := 5;
       name := Null; time := 1000; op := Null |}.
Proof.
  split; [reflexivity|].
  apply (transactionToJSON_inj (transferRow Samples.ledger Samples.k1 "k2" 5 Null 1000)).
  reflexivity.
Defined.

(** X18: the same error is answered with the same body on both channels:
    whenever [errorToJSON] returns for it, that JSON is what
    [sendErrorToRes] sends as the response and what [sendErrorToWS] writes
    to an open socket; when it throws, neither sends anything. *)
Theorem sendError_same_body (req : Request) (res : Response) (ws : Ws.Socket)
    (error : Errors.error) (log : list Js.value) :
  error ≠ Nullish →
  Ws.readyState ws = Ws.OPEN →
  match errorToJSON error log with
  | (Normal json, _) =>
      sent (sendErrorToRes req res error log).1.2 = Some json ∧
      Ws.outbox (sendErrorToWS ws error log).1.2 = Ws.outbox ws ++ [json]
  | (Throw _, _) =>
      sent (sendErrorToRes req res error log).1.2 = sent res ∧
      Ws.outbox (sendErrorToWS ws error log).1.2 = Ws.outbox ws
  end.
Proof.
  intros Herr Hopen. unfold sendErrorToRes, sendErrorToWS, Ws.send.
  assert (∃ st, statusCodeOf error = Normal st) as [st ->]
    by (destruct error; [by eexists..|done]).
  rewrite Hopen.
  by destruct (errorToJSON error log) as [[json|x] l].
Qed.

Lemma sendError_same_body_witness :
  sent (sendErrorToRes (Samples.startWith ∅) freshResponse
          (Krist (newErrorAuthFailed Undefined)) []).1.2
  = Some (Obj (<["error" := Str "auth_failed"]> (<["ok" := Bool false]> ∅))) ∧
  Ws.outbox (sendErrorToWS Samples.openSocket (Krist (newErrorAuthFailed Undefined)) []).1.2
  = Ws.outbox Samples.openSocket
    ++ [Obj (<["error" := Str "auth_failed"]> (<["ok" := Bool false]> ∅))].
Proof.
  apply (sendError_same_body (Samples.startWith ∅) freshResponse Samples.openSocket
           (Krist (newErrorAuthFailed Undefined)) []).
  - discriminate.
  - reflexivity.
Defined.

End SerialisationFacts.

(** ** From the handshake to the connection *)

Section SessionFacts.
Import Js Errors Utils Websockets.

Context (getLogDetails : Request → string)
        (getDetailedMOTD : gmap string Js.value)
        (meanwhile : Meanwhile)
        (defaultSubscriptions : list string)
        (generateToken : gmap string TokenEntry → string)
        (makeV2Address : Js.value → string)
        (verify : Request → string → Js.value → bool * Schemas.Address).

(** X19: the url of the handshake is [ws://localhost:8080/] plus the token
    when no public url is configured (an empty one counts as none), and it
    uses [wss://] exactly when a public url is configured that does not
    start with [localhost:] and [FORCE_INSECURE] is not the string "true";
    in every other case it uses [ws://]. *)
Theorem urlBase_scheme (PUBLIC_URL FORCE_INSECURE : option string) :
  (PUBLIC_URL = None ∨ PUBLIC_URL = Some EmptyString →
   urlBase PUBLIC_URL FORCE_INSECURE = "ws://localhost:8080/") ∧
  (∀ host, PUBLIC_URL = Some host → host ≠ EmptyString →
     urlBase PUBLIC_URL FORCE_INSECURE =
       (if (String.prefix "localhost:" host
            || bool_decide (FORCE_INSECURE = Some "true"))%bool
        then "ws://" else "wss://") +:+ host +:+ "/") ∧
  (String.prefix "wss://" (urlBase PUBLIC_URL FORCE_INSECURE) = true ↔
   (∃ host, PUBLIC_URL = Some host ∧ host ≠ EmptyString
            ∧ String.prefix "localhost:" host = false)
   ∧ FORCE_INSECURE ≠ Some "true").
Proof.
  assert (∀ host, host ≠ EmptyString →
            urlBase (Some host) FORCE_INSECURE =
              (if (String.prefix "localhost:" host
                   || bool_decide (FORCE_INSECURE = Some "true"))%bool
               then "ws://" else "wss://") +:+ host +:+ "/") as Hhost.
  { intros host Hne. unfold urlBase.
    destruct (String.eqb_spec host EmptyString) as [->|_]; [done|].
    by destruct (_ || _)%bool. }
  split; [|split].
  - by intros [->| ->].
  - intros host -> Hne. by apply Hhost.
  - assert (∀ rest, String.prefix "wss://" ("ws://" +:+ rest) = false) as Hws
      by (intros; reflexivity).
    assert (∀ rest, String.prefix "wss://" ("wss://" +:+ rest) = true) as Hwss
      by (intros [|c rest]; reflexivity).
    destruct PUBLIC_URL as [host|].
    + destruct (decide (host = EmptyString)) as [->|Hne].
      * split; [intros [=]|]. by intros [(h & [= <-] & Hh & _) _].
      * rewrite (Hhost host Hne).
        destruct (String.prefix "localhost:" host) eqn:Hl;
          cbn [orb]; [|case_bool_decide as Hf]; rewrite ?Hws, ?Hwss.
        { split; [done|]. intros [(h & [= <-] & _ & Hp) _]. congruence. }
        { split; [done|]. by intros [_ ?]. }
        split; [|done]. intros _. split; [|done]. by exists host.
    + split; [intros [=]|]. by intros [(h & [=] & _) _].
Qed.

Lemma urlBase_scheme_witness :
  urlBase None None = "ws://localhost:8080/" ∧
  urlBase (Some "krist.ceriat.net") None = "wss://krist.ceriat.net/".
Proof.
  split.
  - apply (proj1 (urlBase_scheme None None)). by left.
  - apply (proj1 (proj2 (urlBase_scheme (Some "krist.ceriat.net") None))
             "krist.ceriat.net"); [reflexivity|discriminate].
Defined.

(** X20: a handshake followed, within the 30 seconds of the token, by a
    connection to the url it handed out, on a socket that stays open: the
    connection is registered under the address the secret authenticated
    for, keeping the secret (as a guest, without secret, when none was
    supplied), the hello message is sent, after whatever was broadcast to
    the connection while the handler waited for the snapshot, and the token
    is spent. *)
Theorem handshake_then_connect (PUBLIC_URL FORCE_INSECURE : option string)
    (req : Request) (res : Response) (issued : Z) (w : World)
    (ws : Ws.Socket) (connection : Request) (now : Z)
    (principal : string) (secret : Js.value) :
  (truthy (get (body req) "privatekey") = false
   ∧ principal = "guest" ∧ secret = Undefined)
  ∨ (truthy (get (body req) "privatekey") = true
     ∧ (∃ account,
          verify req (makeV2Address (get (body req) "privatekey"))
                 (get (body req) "privatekey") = (true, account)
          ∧ principal = Schemas.address account)
     ∧ secret = get (body req) "privatekey") →
  tokenParam connection = generateToken (tokens w) →
  now ≤ issued + 30 →
  Ws.readyState ws = Ws.OPEN →
  gone meanwhile = false →
  (wsRoute getLogDetails getDetailedMOTD meanwhile defaultSubscriptions ws connection now
     (startRoute generateToken makeV2Address verify PUBLIC_URL FORCE_INSECURE
        req res issued w).2).1
  = (Normal (),
     {| Ws.handle := Ws.handle ws; Ws.readyState := Ws.OPEN;
        Ws.outbox :=
          Ws.outbox ws ++ broadcast meanwhile ++ [helloMessage getDetailedMOTD] |}) ∧
  registry
    (wsRoute getLogDetails getDetailedMOTD meanwhile defaultSubscriptions ws connection now
       (startRoute generateToken makeV2Address verify PUBLIC_URL FORCE_INSECURE
          req res issued w).2).2
  = registry w ++
      [{| conn_ws := Ws.handle ws;
          conn_token := generateToken (tokens w);
          conn_address := principal;
          conn_privatekey := secret;
          conn_subscriptions := defaultSubscriptions |}] ∧
  tokens
    (wsRoute getLogDetails getDetailedMOTD meanwhile defaultSubscriptions ws connection now
       (startRoute generateToken makeV2Address verify PUBLIC_URL FORCE_INSECURE
          req res issued w).2).2
  = delete (generateToken (tokens w)) (tokens w).
Proof.
  intros Hwho Htoken Hnow Hopen Hstays.
  assert ((startRoute generateToken makeV2Address verify PUBLIC_URL FORCE_INSECURE
             req res issued w).2
          = with_tokens (<[generateToken (tokens w) :=
                             {| tk_address := principal; tk_privatekey := secret;
                                tk_expires := issued + 30 |}]> (tokens w)) w) as ->.
  { destruct Hwho as [(Hpk & -> & ->)|(Hpk & (account & Hv & ->) & ->)].
    - by rewrite startRoute_guest.
    - by rewrite (startRoute_authed _ _ _ _ _ _ _ _ _ account). }
  assert (useToken (tokenParam connection) now
            (tokens (with_tokens (<[generateToken (tokens w) :=
                                     {| tk_address := principal; tk_privatekey := secret;
                                        tk_expires := issued + 30 |}]> (tokens w)) w))
          = (Normal {| tk_address := principal; tk_privatekey := secret;
                       tk_expires := issued + 30 |},
             delete (generateToken (tokens w)) (tokens w))) as Huse.
  { rewrite Htoken. unfold useToken. cbn [tokens with_tokens].
    rewrite lookup_insert_eq. cbn [tk_expires].
    destruct (Z.ltb_spec (issued + 30) now); [lia|].
    by rewrite delete_insert_eq. }
  rewrite (wsRoute_connected _ _ _ _ _ _ _ _ _ _ Huse Hopen Hstays). cbn.
  by rewrite Htoken.
Qed.

End SessionFacts.

Lemma handshake_then_connect_witness :
  Websockets.registry
    (Websockets.wsRoute Samples.logDetails Samples.motd Samples.quiet
       Samples.subscriptions Samples.openSocket (Samples.connectWith "cdfa11e5") 1020
       (Websockets.startRoute Samples.nextToken Samples.v2Address Samples.verifyK1
          None None (Samples.startWith (<["privatekey" := Js.Str "secret"]> ∅))
          Utils.freshResponse 1000 Samples.server).2).2
  = [{| Websockets.conn_ws := 7;
        Websockets.conn_token := "cdfa11e5";
        Websockets.conn_address := "k1";
        Websockets.conn_privatekey := Js.Str "secret";
        Websockets.conn_subscriptions := Samples.subscriptions |}].
Proof.
  apply (handshake_then_connect Samples.logDetails Samples.motd Samples.quiet
           Samples.subscriptions Samples.nextToken Samples.v2Address Samples.verifyK1 None None
           (Samples.startWith (<["privatekey" := Js.Str "secret"]> ∅))
           Utils.freshResponse 1000 Samples.server Samples.openSocket
           (Samples.connectWith "cdfa11e5") 1020 "k1" (Js.Str "secret")).
  - right. split; [reflexivity|]. split; [|reflexivity].
    exists Samples.k1. split; reflexivity.
  - reflexivity.
  - lia.
  - reflexivity.
  - reflexivity.
Defined.

(** ** The legacy work answer *)

Section WorkRootFacts.
Import Js Utils WorkRoot.

(** The legacy [/] route answers the current work as plain text
    whenever the query has a [getwork] parameter, whatever its value (an
    empty one included), and otherwise hands the request on untouched; the
    text is the decimal notation of the number [/work] reports, and the
    state is left as it was. *)
Lemma getRoot_answers_when_asked (State : Type) (getWork : State → Z)
    (req : Request) (res : Response) (s : State) :
  (∀ v, query req !! "getwork" = Some v → v ≠ Undefined →
     getRoot State getWork req res s
       = ({| status := status res; sent := Some (Str (pretty (getWork s))) |}, false, s)
     ∧ sent (Work.getWorkRoute State (λ s, Num (getWork s)) req res s).1
       = Some (Obj (<["ok" := Bool true]> (<["work" := Num (getWork s)]> ∅)))) ∧
  (query req !! "getwork" = None → getRoot State getWork req res s = (res, true, s)).
Proof.
  unfold getRoot, get. split.
  - intros v -> Hv. cbn. by destruct v.
  - by intros ->.
Qed.

Lemma getRoot_answers_when_asked_witness :
  getRoot unit (λ _, 18750)
    {| query := <["getwork" := Str EmptyString]> ∅; body := ∅; params := ∅ |}
    freshResponse ()
  = ({| status := 200; sent := Some (Str "18750") |}, false, ()).
Proof.
  apply (proj1 (getRoot_answers_when_asked unit (λ _, 18750)
                  {| query := <["getwork" := Str EmptyString]> ∅;
                     body := ∅; params := ∅ |} freshResponse ())
           (Str EmptyString)).
  - reflexivity.
  - discriminate.
Defined.

End WorkRootFacts.
